(** * galadrielcss-webpack: loader and plugin, embedded and verified

    The development follows the two TypeScript units of the package:

    - the loader ([galadrielWebpackLoader] and its helpers), which rewrites
      the bulk-stylesheet directive and the Nenyr markup tokens of a source
      text, either from the build artifact (production) or through the
      development server (development);
    - the plugin ([WebpackClient]), which resolves the platform, installs the
      compiler binary, runs the build and removes the temporary folder, under
      two module-level flags.

    JavaScript strings are modelled by [string]; every character the code
    looks at is ASCII.  A [Record<string, string>] read from the JSON
    artifact is a [gmap string string] of its own properties. *)

From Stdlib Require Import String Ascii List Arith Bool Lia Permutation.
From stdpp Require Import gmap strings list pretty.
Import ListNotations.
Open Scope string_scope.

(** ** Errors and fallible results *)

Inductive JsError :=
| TypeError (msg : string)
| AxiosError (url : string)
| PlainError (msg : string).

Inductive Result (A : Type) :=
| Ok (a : A)
| Err (e : JsError).
Arguments Ok {A} a.
Arguments Err {A} e.

Definition bindR {A B} (r : Result A) (k : A -> Result B) : Result B :=
  match r with
  | Ok a => k a
  | Err e => Err e
  end.

Notation "'try!' x ':=' r 'in' k" := (bindR r (fun x => k))
  (at level 10, x name, r at level 100, k at level 200).

(** ** The string primitives the code calls *)

Module Js.

(** [stripPrefix pat s] is the rest of [s] after a leading [pat]. *)
Fixpoint stripPrefix (pat s : string) : option string :=
  match pat with
  | "" => Some s
  | String a pat' =>
      match s with
      | "" => None
      | String b s' => if Ascii.eqb a b then stripPrefix pat' s' else None
      end
  end.

(** [s.startsWith(pat)] *)
Definition startsWith (s pat : string) : bool :=
  match stripPrefix pat s with Some _ => true | None => false end.

(** The first occurrence of [pat] in [s], as the text before it and the text
    after it ([s.indexOf(pat)] and the two substrings around the hit). *)
Fixpoint splitFirst (pat s : string) : option (string * string) :=
  match stripPrefix pat s with
  | Some rest => Some ("", rest)
  | None =>
      match s with
      | "" => None
      | String c s' =>
          match splitFirst pat s' with
          | Some (pre, post) => Some (String c pre, post)
          | None => None
          end
      end
  end.

(** [s.includes(pat)] *)
Definition includes (s pat : string) : bool :=
  match splitFirst pat s with Some _ => true | None => false end.

(** GetSubstitution of ECMA-262 for a string search value: there are no
    captures, so only [$$], [$&], [$`] and [$'] are replacement patterns and
    every other character, a lone [$] included, stands for itself. *)
Fixpoint getSubstitution (matched pre post template : string) : string :=
  match template with
  | "" => ""
  | String c t =>
      if Ascii.eqb c "$" then
        match t with
        | String d t' =>
            if Ascii.eqb d "$" then String "$" (getSubstitution matched pre post t')
            else if Ascii.eqb d "&" then matched ++ getSubstitution matched pre post t'
            else if Ascii.eqb d "`" then pre ++ getSubstitution matched pre post t'
            else if Ascii.eqb d "'" then post ++ getSubstitution matched pre post t'
            else String c (getSubstitution matched pre post t)
        | "" => String c ""
        end
      else String c (getSubstitution matched pre post t)
  end.

(** [s.replace(pat, replacement)] with a string [pat]: the first occurrence
    only, the replacement read as a template. *)
Definition replace (s pat replacement : string) : string :=
  match splitFirst pat s with
  | None => s
  | Some (pre, post) => pre ++ getSubstitution pat pre post replacement ++ post
  end.

(** [s.replaceAll(c, "")] for a one-character search string: every
    occurrence of [c] is dropped. *)
Fixpoint removeAll (c : ascii) (s : string) : string :=
  match s with
  | "" => ""
  | String d s' => if Ascii.eqb c d then removeAll c s' else String d (removeAll c s')
  end.

(** Does the character occur in the string? *)
Fixpoint hasChar (c : ascii) (s : string) : bool :=
  match s with
  | "" => false
  | String d s' => Ascii.eqb c d || hasChar c s'
  end.

End Js.

(** ** The loader *)

Module Loader.

(** *** The token pattern

    [REGEX = /@(?:class|layout|module):([a-zA-Z0-9_-]+)(?:::([a-zA-Z0-9_-]+))?/g] *)

(** The character class [[a-zA-Z0-9_-]]. *)
Definition isIdent (c : ascii) : bool :=
  (Ascii.leb "a" c && Ascii.leb c "z")
  || (Ascii.leb "A" c && Ascii.leb c "Z")
  || (Ascii.leb "0" c && Ascii.leb c "9")
  || Ascii.eqb c "_" || Ascii.eqb c "-".

(** [[a-zA-Z0-9_-]*], greedy: the longest run of class characters and the
    rest of the text. *)
Fixpoint spanIdent (s : string) : string * string :=
  match s with
  | "" => ("", "")
  | String c s' =>
      if isIdent c then let (a, b) := spanIdent s' in (String c a, b)
      else ("", s)
  end.

(** The three namespace markers of the alternation. *)
Inductive Namespace := NsClass | NsLayout | NsModule.

Definition marker (ns : Namespace) : string :=
  match ns with
  | NsClass => "class"
  | NsLayout => "layout"
  | NsModule => "module"
  end.

(** [@(?:class|layout|module):] at the head of the text. *)
Definition matchMarker (s : string) : option (Namespace * string) :=
  match Js.stripPrefix "@class:" s with
  | Some r => Some (NsClass, r)
  | None =>
      match Js.stripPrefix "@layout:" s with
      | Some r => Some (NsLayout, r)
      | None =>
          match Js.stripPrefix "@module:" s with
          | Some r => Some (NsModule, r)
          | None => None
          end
      end
  end.

(** One match of [REGEX]: [match0] is the matched text ([match[0]]), [p1] the
    first group and [p2] the second one, [None] when the optional group did
    not take part ([undefined]). *)
Record Match := mkMatch {
  match0 : string;
  p1 : string;
  p2 : option string
}.

(** [REGEX] tried at the head of the text.  The first group takes the longest
    run of class characters; the optional group is taken when [::] and at
    least one class character follow, and is skipped otherwise. *)
Definition matchAt (s : string) : option Match :=
  match matchMarker s with
  | None => None
  | Some (ns, r1) =>
      let (name, r2) := spanIdent r1 in
      match name with
      | "" => None
      | _ =>
          let head := "@" ++ marker ns ++ ":" ++ name in
          match Js.stripPrefix "::" r2 with
          | None => Some (mkMatch head name None)
          | Some r3 =>
              let (sub, _) := spanIdent r3 in
              match sub with
              | "" => Some (mkMatch head name None)
              | _ => Some (mkMatch (head ++ "::" ++ sub) name (Some sub))
              end
          end
      end
  end.

(** The global scan of [REGEX] over a text, left to right: a character no
    match starts at is kept as it is, a match is recorded and the scan
    resumes right after it ([lastIndex]). *)
Inductive Segment :=
| Lit (c : ascii)
| Tok (m : Match).

Fixpoint scan (skip : nat) (s : string) : list Segment :=
  match s with
  | "" => []
  | String c s' =>
      match skip with
      | S k => scan k s'
      | O =>
          match matchAt s with
          | Some m => Tok m :: scan (String.length (match0 m) - 1) s'
          | None => Lit c :: scan 0 s'
          end
      end
  end.

Definition segments (s : string) : list Segment := scan 0 s.

(** [[...source.matchAll(REGEX)]] *)
Fixpoint tokensOf (segs : list Segment) : list Match :=
  match segs with
  | [] => []
  | Lit _ :: r => tokensOf r
  | Tok m :: r => m :: tokensOf r
  end.

Definition matchAll (s : string) : list Match := tokensOf (segments s).

(** [source.replace(REGEX, callback)]: every match is replaced by what the
    callback returns for it, taken literally; a callback that throws aborts
    the call. *)
Fixpoint replaceSegments (callback : Match -> Result string)
    (segs : list Segment) : Result string :=
  match segs with
  | [] => Ok ""
  | Lit c :: r =>
      try! rest := replaceSegments callback r in Ok (String c rest)
  | Tok m :: r =>
      try! v := callback m in
      try! rest := replaceSegments callback r in
      Ok (v ++ rest)
  end.

Definition replaceRegex (s : string) (callback : Match -> Result string)
  : Result string :=
  replaceSegments callback (segments s).

(** The text the segments of a scan spell out. *)
Fixpoint sourceOf (segs : list Segment) : string :=
  match segs with
  | [] => ""
  | Lit c :: r => String c (sourceOf r)
  | Tok m :: r => match0 m ++ sourceOf r
  end.




(** A non-empty run of class characters. *)
Fixpoint allIdent (s : string) : bool :=
  match s with
  | "" => true
  | String c s' => isIdent c && allIdent s'
  end.

Definition identifier (s : string) : bool :=
  match s with "" => false | _ => allIdent s end.

(** The text of the optional group. *)
Definition subText (p : option string) : string :=
  match p with Some sub => "::" ++ sub | None => "" end.

(** The shape of a match: marker, colon, name, and the optional group. *)
Definition wellFormed (m : Match) : Prop :=
  (exists ns, match0 m = "@" ++ marker ns ++ ":" ++ p1 m ++ subText (p2 m))
  /\ identifier (p1 m) = true
  /\ match p2 m with Some sub => identifier sub = true | None => True end.

(** *** The build artifact *)

Record TrackingClasses := mkTracking {
  central : gmap string string;
  layouts : gmap string (gmap string string);
  modules : gmap string (gmap string string)
}.

Record GaladrielBuildType := mkBuild {
  css : string;
  trackingClasses : TrackingClasses
}.

Definition DIRECTIVE : string := "@galadrielcss styles;".

(** *** Production: [replaceCss] and [replaceNenyrMakrup] *)

(** A string is truthy when it is not empty. *)
Definition truthy (s : string) : bool :=
  match s with "" => false | _ => true end.

Definition replaceCss (GALADRIEL_BUILD_DATA : option GaladrielBuildType)
    (source : string) : string :=
  match GALADRIEL_BUILD_DATA with
  | Some data =>
      if truthy (css data) then Js.replace source DIRECTIVE (css data)
      else source
  | None => source
  end.

(** The property key a group is used as: an [undefined] group reads the key
    ["undefined"]. *)
Definition keyOf (p : option string) : string :=
  match p with Some k => k | None => "undefined" end.

(** [outer[p1][p2]]: reading a property of [undefined] throws. *)
Definition nestedLookup (outer : gmap string (gmap string string))
    (k1 : string) (k2 : option string) : Result (option string) :=
  match outer !! k1 with
  | Some inner => Ok (inner !! keyOf k2)
  | None =>
      Err (TypeError ("Cannot read properties of undefined (reading '"
                        ++ keyOf k2 ++ "')"))
  end.

(** The value of [replaceValue] after the three-way test on the matched
    text, [None] for [null] and [undefined]. *)
Definition lookupToken (trackingMap : option TrackingClasses) (m : Match)
  : Result (option string) :=
  if Js.startsWith (match0 m) "@class" then
    match trackingMap with
    | Some t => Ok (central t !! p1 m)
    | None => Ok None
    end
  else if Js.startsWith (match0 m) "@layout" then
    match trackingMap with
    | Some t => nestedLookup (layouts t) (p1 m) (p2 m)
    | None => Ok None
    end
  else if Js.startsWith (match0 m) "@module" then
    match trackingMap with
    | Some t => nestedLookup (modules t) (p1 m) (p2 m)
    | None => Ok None
    end
  else Ok None.

(** The callback given to [source.replace(REGEX, ...)]. *)
Definition replaceCallback (trackingMap : option TrackingClasses) (m : Match)
  : Result string :=
  try! replaceValue := lookupToken trackingMap m in
  match replaceValue with
  | Some v => if truthy v then Ok (Js.removeAll "\" v) else Ok (match0 m)
  | None => Ok (match0 m)
  end.

Definition replaceNenyrMakrup (GALADRIEL_BUILD_DATA : option GaladrielBuildType)
    (source : string) : Result string :=
  let trackingMap := option_map trackingClasses GALADRIEL_BUILD_DATA in
  replaceRegex source (replaceCallback trackingMap).

(** *** Development: the server, [asyncReplaceCss] and
    [asyncReplaceNenyrMakrup] *)

(** The development server as the loader sees it: its address, and what
    [axios.get(url)] settles to, the response body or the error of a failed
    or non-success request. *)
Record DevServer := mkServer {
  GALADRIEL_SERVER_ADDR : string;
  axiosGet : string -> Result string
}.

(** How a promise ends; [Pending] is a promise that never settles. *)
Inductive Settled (A : Type) :=
| Fulfilled (a : A)
| Rejected (e : JsError)
| Pending.
Arguments Fulfilled {A} a.
Arguments Rejected {A} e.
Arguments Pending {A}.

Definition asyncReplaceCss (srv : DevServer) (source : string)
  : Result string :=
  try! css := axiosGet srv (GALADRIEL_SERVER_ADDR srv ++ "/fetch-css") in
  Ok (Js.replace source DIRECTIVE css).

(** The URL [retrieveUtilityClassnames] requests for a matched text. *)
Definition requestUrl (addr matched : string) : string :=
  let formattedMatch := Js.replace (Js.replace matched "::" "/") ":" "/" in
  if Js.startsWith matched "@class"
  then addr ++ "/collect-utility-class-names/" ++ formattedMatch ++ "/none"
  else addr ++ "/collect-utility-class-names/" ++ formattedMatch.

Definition retrieveUtilityClassnames (srv : DevServer) (matched : string)
  : Result string :=
  axiosGet srv (requestUrl (GALADRIEL_SERVER_ADDR srv) matched).

(** [Promise.all]: the requests complete in the order [order] (indices into
    the array of promises).  A fulfilled promise stores its value in its own
    slot; the first rejected one rejects the whole; the result is fulfilled
    once every slot is filled. *)
Fixpoint settle (order : list nat) (outcomes : list (Result string))
    (values : list (option string)) : Settled (list string) :=
  match order with
  | [] =>
      match mapM id values with
      | Some vs => Fulfilled vs
      | None => Pending
      end
  | i :: rest =>
      match outcomes !! i with
      | Some (Ok v) => settle rest outcomes (<[i := Some v]> values)
      | Some (Err e) => Rejected e
      | None => settle rest outcomes values
      end
  end.

Definition promiseAll (order : list nat) (outcomes : list (Result string))
  : Settled (list string) :=
  settle order outcomes (replicate (length outcomes) None).

(** The [forEach] loop: each result replaces the first occurrence of its
    match's text in the text transformed so far. *)
Definition substituteEach (source : string) (matches : list Match)
    (transformedMatches : list string) : string :=
  fold_left (fun transformedSource '(m, transformedContent) =>
               Js.replace transformedSource (match0 m) transformedContent)
            (zip matches transformedMatches) source.

(** [asyncReplaceNenyrMakrup]: the requests it issues (each call of
    [retrieveUtilityClassnames] sends its request before the first [await]),
    in the order it issues them, and how its promise ends. *)
Definition asyncReplaceNenyrMakrup (srv : DevServer) (order : list nat)
    (source : string) : list string * Settled string :=
  let matches := matchAll source in
  let urls := map (fun m => requestUrl (GALADRIEL_SERVER_ADDR srv) (match0 m))
                  matches in
  let promises := map (fun m => retrieveUtilityClassnames srv (match0 m))
                      matches in
  (urls,
   match promiseAll order promises with
   | Fulfilled transformedMatches =>
       Fulfilled (substituteEach source matches transformedMatches)
   | Rejected e => Rejected e
   | Pending => Pending
   end).

(** *** The entry point *)

(** What the loader is given: a text, or something that is not a string. *)
Inductive LoaderSource :=
| TextSource (s : string)
| OtherSource (raw : list Byte.byte).

(** The module-level constants: production with the loaded artifact, or
    development with the server; [order] is the order in which the requests
    of one call complete. *)
Inductive LoaderEnv :=
| Production (GALADRIEL_BUILD_DATA : GaladrielBuildType)
| Development (srv : DevServer) (order : list nat).

(** What the loader reports through [callback]. *)
Inductive CallbackResult :=
| CallbackOk (transformedContent : LoaderSource)
| CallbackErr (e : JsError)
| NoCallback.

Definition ofResult (r : Result string) : CallbackResult :=
  match r with
  | Ok s => CallbackOk (TextSource s)
  | Err e => CallbackErr e
  end.

Definition ofSettled (r : Settled string) : CallbackResult :=
  match r with
  | Fulfilled s => CallbackOk (TextSource s)
  | Rejected e => CallbackErr e
  | Pending => NoCallback
  end.

Definition galadrielWebpackLoader (env : LoaderEnv) (source : LoaderSource)
  : CallbackResult :=
  match source with
  | TextSource src =>
      if Js.includes src DIRECTIVE then
        match env with
        | Production data => CallbackOk (TextSource (replaceCss (Some data) src))
        | Development srv _ => ofResult (asyncReplaceCss srv src)
        end
      else
        match env with
        | Production data => ofResult (replaceNenyrMakrup (Some data) src)
        | Development srv order =>
            ofSettled (snd (asyncReplaceNenyrMakrup srv order src))
        end
  | OtherSource _ => CallbackOk source
  end.

(** *** Readings of the specification, for comparison

    The two definitions below follow the words of the specification, not the
    code. *)

(** "First resolve and substitute the directive, then extract and resolve
    the tokens of the modified text", in production. *)
Definition directiveThenTokens (data : GaladrielBuildType) (s : string)
  : CallbackResult :=
  ofResult (replaceNenyrMakrup (Some data) (replaceCss (Some data) s)).

(** "A class token never carries a sub-name; a layout or module token
    requires one." *)
Definition kindSpecific (m : Match) : Prop :=
  if Js.startsWith (match0 m) "@class" then p2 m = None else p2 m <> None.

End Loader.

(** ** The plugin *)

Module Client.

(** *** Platform resolution *)

(** [detectLinuxDistro]: [ldd] is what [execSync("ldd $(which ls)")]
    returned, [None] when it threw. *)
Definition detectLinuxDistro (ldd : option string) : option string :=
  match ldd with
  | Some result =>
      if Js.includes result "musl" then Some "x86_64-unknown-linux-musl"
      else Some "x86_64-unknown-linux-gnu"
  | None => Some "x86_64-unknown-linux-gnu"
  end.

(** [verifyOS]; [None] is [null]. *)
Definition verifyOS (platform architecture : string) (ldd : option string)
  : option string :=
  if String.eqb platform "darwin" then
    if Js.includes architecture "x64" then Some "x86_64-apple-darwin"
    else Some "aarch64-apple-darwin"
  else if String.eqb platform "win32" && Js.includes architecture "x64" then
    Some "x86_64-pc-windows-msvc"
  else if String.eqb platform "linux" && Js.includes architecture "x64" then
    detectLinuxDistro ldd
  else None.

(** *** Installation and build *)

(** How writing the downloaded stream ends: a write error, or [finish] with
    the file there or not. *)
Inductive StreamOutcome :=
| WriteError (e : JsError)
| Finished (binaryExists : bool).

(** How [axios.get(downloadUrl, ...)] ends: rejected (no connection, timeout,
    status refused), or a response with its status and stream. *)
Inductive DownloadOutcome :=
| RequestFailed (e : JsError)
| Responded (status : nat) (stream : StreamOutcome).

(** How the spawned build process ends: [close] with its exit code ([None]
    when a signal ended it), or [error]. *)
Inductive ProcessOutcome :=
| Closed (code : option nat)
| SpawnFailed (msg : string).

(** The machine the plugin runs on. *)
Record Host := mkHost {
  platform : string;
  arch : string;
  lddProbe : option string;
  download : DownloadOutcome;
  buildProcess : ProcessOutcome
}.

(** What the plugin does to the outside, in order. *)
Inductive Effect :=
| InstallCalled
| Mkdir
| Download (url : string)
| Chmod
| BuildSpawned
| ConsoleError (e : JsError)
| RemoveDir.

Definition downloadUrl (platform patch : string) : string :=
  "https://github.com/patrickgunnar/galadrielcss/releases/latest/download/galadrielcss-"
  ++ patch ++ (if String.eqb platform "win32" then ".exe" else "").

(** [installGaladrielCss]: its effects and how its promise settles. *)
Definition installGaladrielCss (h : Host) : list Effect * Result unit :=
  match verifyOS (platform h) (arch h) (lddProbe h) with
  | None =>
      ([InstallCalled],
       Err (PlainError "Unsupported OS or architecture. Galadriel CSS cannot run."))
  | Some patch =>
      let url := downloadUrl (platform h) patch in
      match download h with
      | RequestFailed e =>
          ([InstallCalled; Mkdir; Download url; ConsoleError e], Err e)
      | Responded status stream =>
          if negb (Nat.eqb status 200) then
            let e := PlainError ("Failed to download Galadriel CSS. HTTP status: "
                                   ++ pretty status) in
            ([InstallCalled; Mkdir; Download url; ConsoleError e], Err e)
          else
            match stream with
            | WriteError e =>
                ([InstallCalled; Mkdir; Download url; ConsoleError e], Err e)
            | Finished true =>
                ([InstallCalled; Mkdir; Download url; Chmod], Ok tt)
            | Finished false =>
                ([InstallCalled; Mkdir; Download url],
                 Err (PlainError "Galadriel CSS binary not found!"))
            end
      end
  end.

(** [startGaladrielBuild] *)
Definition startGaladrielBuild (h : Host) : list Effect * Result unit :=
  match buildProcess h with
  | Closed (Some 0) => ([BuildSpawned], Ok tt)
  | Closed (Some code) =>
      ([BuildSpawned],
       Err (PlainError ("Process finished with error code: " ++ pretty code)))
  | Closed None =>
      ([BuildSpawned], Err (PlainError "Process finished with error code: null"))
  | SpawnFailed msg =>
      ([BuildSpawned],
       Err (PlainError ("Error executing Galadriel CSS build: " ++ msg)))
  end.

(** The body of the [try] block of [handleBeforeRun]: install, then build. *)
Definition installThenBuild (h : Host) : list Effect * Result unit :=
  match installGaladrielCss h with
  | (fx, Ok _) =>
      let (fx', r) := startGaladrielBuild h in ((fx ++ fx')%list, r)
  | (fx, Err e) => (fx, Err e)
  end.

(** [handleBeforeRun]: the [catch] block logs the error and the promise of
    the hook is fulfilled. *)
Definition handleBeforeRun (h : Host) : list Effect * Result unit :=
  match installThenBuild h with
  | (fx, Ok _) => (fx, Ok tt)
  | (fx, Err e) => ((fx ++ [ConsoleError e])%list, Ok tt)
  end.

(** *** The module-level flags and the hooks *)

(** The two flags, the taps the plugin has placed on the [beforeRun] and
    [done] hooks (one entry per tap, naming the compiler), whether the
    [.galadrielcss] folder exists, and the effects so far. *)
Record State := mkState {
  hasRunGaladrielBuild : bool;
  hasRemovedGaladrielDir : bool;
  beforeRunTaps : list nat;
  doneTaps : list nat;
  dirExists : bool;
  effects : list Effect
}.

Definition initial : State :=
  mkState false false [] [] false [].

(** [setupProductionHooks(compiler)] *)
Definition setupProductionHooks (compiler : nat) (st : State) : State :=
  let st1 :=
    if hasRunGaladrielBuild st then st
    else mkState true (hasRemovedGaladrielDir st)
                 (beforeRunTaps st ++ [compiler])%list (doneTaps st)
                 (dirExists st) (effects st) in
  mkState (hasRunGaladrielBuild st1) (hasRemovedGaladrielDir st1)
          (beforeRunTaps st1) (doneTaps st1 ++ [compiler])%list
          (dirExists st1) (effects st1).

(** [apply(compiler)]; [production] is [process.env.NODE_ENV === "production"]. *)
Definition apply (production : bool) (compiler : nat) (st : State) : State :=
  if production then setupProductionHooks compiler st else st.

Definition isMkdir (e : Effect) : bool :=
  match e with Mkdir => true | _ => false end.

(** One run of the [handleBeforeRun] tap; the folder exists once
    [createFolderPathSync] has run. *)
Definition runBeforeRunTap (h : Host) (st : State) : State :=
  let (fx, _) := handleBeforeRun h in
  mkState (hasRunGaladrielBuild st) (hasRemovedGaladrielDir st)
          (beforeRunTaps st) (doneTaps st)
          (dirExists st || existsb isMkdir fx)
          (effects st ++ fx)%list.

(** [removeGaladrielTempFolder] *)
Definition removeGaladrielTempFolder (st : State) : State :=
  if dirExists st then
    mkState (hasRunGaladrielBuild st) (hasRemovedGaladrielDir st)
            (beforeRunTaps st) (doneTaps st) false
            (effects st ++ [RemoveDir])%list
  else st.

(** [cleanupAfterBuild] *)
Definition cleanupAfterBuild (st : State) : State :=
  if hasRemovedGaladrielDir st then st
  else removeGaladrielTempFolder
         (mkState (hasRunGaladrielBuild st) true (beforeRunTaps st)
                  (doneTaps st) (dirExists st) (effects st)).

(** What happens in the process: the plugin is applied to a compiler, or
    webpack fires a compiler's [beforeRun] or [done] hook, which runs every
    tap placed on it. *)
Inductive Event :=
| Apply (production : bool) (compiler : nat)
| FireBeforeRun (compiler : nat) (h : Host)
| FireDone (compiler : nat).

Fixpoint iter {A} (n : nat) (f : A -> A) (a : A) : A :=
  match n with
  | O => a
  | S k => iter k f (f a)
  end.

Definition tapsOn (compiler : nat) (taps : list nat) : nat :=
  length (List.filter (Nat.eqb compiler) taps).

Definition step (st : State) (ev : Event) : State :=
  match ev with
  | Apply production compiler => apply production compiler st
  | FireBeforeRun compiler h =>
      iter (tapsOn compiler (beforeRunTaps st)) (runBeforeRunTap h) st
  | FireDone compiler =>
      iter (tapsOn compiler (doneTaps st)) cleanupAfterBuild st
  end.

Definition run (st : State) (trace : list Event) : State :=
  fold_left step trace st.

Definition countEffect (P : Effect -> bool) (st : State) : nat :=
  length (List.filter P (effects st)).

Definition isInstall (e : Effect) : bool :=
  match e with InstallCalled => true | _ => false end.
Definition isBuild (e : Effect) : bool :=
  match e with BuildSpawned => true | _ => false end.
Definition isRemove (e : Effect) : bool :=
  match e with RemoveDir => true | _ => false end.

Definition installs := countEffect isInstall.
Definition builds := countEffect isBuild.
Definition removals := countEffect isRemove.

(** How often the [beforeRun] hook of a compiler fires in a trace. *)
Definition firings (compiler : nat) (trace : list Event) : nat :=
  length (List.filter (fun ev => match ev with
                                 | FireBeforeRun c _ => Nat.eqb c compiler
                                 | _ => false
                                 end) trace).

(** What the two flags keep true along every trace. *)
Definition guarded (st : State) : Prop :=
  length (beforeRunTaps st) <= 1
  /\ (hasRunGaladrielBuild st = false -> beforeRunTaps st = [])
  /\ removals st <= 1
  /\ (hasRemovedGaladrielDir st = false -> removals st = 0)
  /\ builds st <= installs st.

(** *** Readings of the specification, for comparison *)

(** The fatal conditions of the install and build step, in the words of the
    specification: an unsupported platform, a download or verification that
    fails, a build process that does not exit with 0. *)
Definition unsupported (h : Host) : bool :=
  match verifyOS (platform h) (arch h) (lddProbe h) with
  | None => true
  | Some _ => false
  end.





End Client.

(** ** The earlier plugin of [src/index.ts]

    The revision of the plugin kept in [src/index.ts] (its second half, the
    one that downloads the binary), before [handleBeforeRun] and
    [detectLinuxDistro] were split off: the [beforeRun] tap awaits the two
    steps without a [try], and [verifyOS] reads the probe itself. *)

Module Legacy.

Definition verifyOS (platform architecture : string) (ldd : option string)
  : option string :=
  if String.eqb platform "darwin" then
    if Js.includes architecture "x64" then Some "x86_64-apple-darwin"
    else Some "aarch64-apple-darwin"
  else if String.eqb platform "win32" && Js.includes architecture "x64" then
    Some "x86_64-pc-windows-msvc"
  else if String.eqb platform "linux" && Js.includes architecture "x64" then
    match ldd with
    | Some result =>
        if Js.includes result "musl" then Some "x86_64-unknown-linux-musl"
        else if Js.includes result "libc.so" then Some "x86_64-unknown-linux-gnu"
        else None
    | None => None
    end
  else None.

(** The machine: the probe, what [request("GET", downloadUrl)] gives (the
    status of the response, or the error it throws), how writing the file
    ends, and the exit code of the build command. *)
Record Host := mkHost {
  platform : string;
  arch : string;
  lddProbe : option string;
  request : Result nat;
  writeFile : Result unit;
  buildExit : nat
}.

(** [installGaladrielCss]: the promise is settled only inside
    [if (patch !== null)]; [getBody] throws on a status of 300 or more. *)
Definition installGaladrielCss (h : Host) : Loader.Settled unit :=
  match verifyOS (platform h) (arch h) (lddProbe h) with
  | None => Loader.Pending
  | Some _ =>
      match request h with
      | Err e => Loader.Rejected e
      | Ok status =>
          if Nat.leb 300 status then
            Loader.Rejected (PlainError ("Server responded with status code "
                                           ++ pretty status))
          else
            match writeFile h with
            | Ok _ => Loader.Fulfilled tt
            | Err e => Loader.Rejected e
            end
      end
  end.

Definition startGaladrielBuild (h : Host) : Loader.Settled unit :=
  if Nat.eqb (buildExit h) 0 then Loader.Fulfilled tt
  else Loader.Rejected (PlainError "Process finished with error code: {code}").

(** The [beforeRun] tap: [await this.installGaladrielCss(); await
    this.startGaladrielBuild();], no [try] around them. *)
Definition beforeRunTap (h : Host) : Loader.Settled unit :=
  match installGaladrielCss h with
  | Loader.Fulfilled _ => startGaladrielBuild h
  | Loader.Rejected e => Loader.Rejected e
  | Loader.Pending => Loader.Pending
  end.

End Legacy.

(** ** Where a match ends *)

Module Scan.

Import Loader.

(** What follows a match at the place it was found: no class character, and
    after a match without sub-name no [::] with a class character behind. *)
Definition stopsHere (m : Match) (rest : string) : Prop :=
  match rest with "" => True | String c _ => isIdent c = false end
  /\ (p2 m = None ->
      forall c r, rest = "::" ++ String c r -> isIdent c = false).

End Scan.

(** ** The registration of the loader

    [processNormalModuleRequest] and [shouldProcessFile] of the plugin: the
    callback tapped on the [beforeLoaders] (or [normalModuleLoader]) hook. *)

Module Registration.

(** The alternation of [/\.(js|jsx|ts|tsx|css|md|mdx)$/]. *)
Definition EXTENSIONS : list string :=
  ["js"; "jsx"; "ts"; "tsx"; "css"; "md"; "mdx"].

(** The pattern tried at the head of the text: a dot, one alternative, and
    the end of the text. *)
Definition extensionHere (t : string) : bool :=
  match t with
  | "" => false
  | String c ext => Ascii.eqb c "." && existsb (String.eqb ext) EXTENSIONS
  end.

(** [shouldProcessFile]: [test] tries the pattern at every position. *)
Fixpoint shouldProcessFile (filename : string) : bool :=
  extensionHere filename
  || match filename with
     | "" => false
     | String _ rest => shouldProcessFile rest
     end.

(** An entry of [normalModule.loaders]. *)
Record LoaderItem := mkItem {
  loader : string;
  type : option string;
  ident : option string;
  options : option string
}.

Record NormalModule := mkModule {
  userRequest : string;
  loaders : list LoaderItem
}.

(** The entry the plugin pushes; [webpackLoaderPath] is what [path.resolve]
    gave for the loader's file. *)
Definition galadrielItem (webpackLoaderPath : string) : LoaderItem :=
  mkItem webpackLoaderPath (Some "javascript/auto")
         (Some "galadrielcss-webpack-loader") None.

Definition hasLoader (webpackLoaderPath : string) (items : list LoaderItem)
  : bool :=
  existsb (fun item => String.eqb (loader item) webpackLoaderPath) items.

(** [processNormalModuleRequest(_, normalModule)]: the module after the
    call. *)
Definition processNormalModuleRequest (webpackLoaderPath : string)
    (normalModule : NormalModule) : NormalModule :=
  if shouldProcessFile (userRequest normalModule) then
    if hasLoader webpackLoaderPath (loaders normalModule) then normalModule
    else mkModule (userRequest normalModule)
                  (loaders normalModule ++ [galadrielItem webpackLoaderPath])%list
  else normalModule.

End Registration.

(** ** Sample data *)

Module Samples.

Import Loader.

(** An artifact with one class, one layout entry and one empty entry. *)
Definition artifact : GaladrielBuildType :=
  mkBuild "body{margin:0}"
    (mkTracking {[ "button" := "btn-1a2b"; "card" := "md\:flex"; "ghost" := "" ]}
                {[ "header" := {[ "nav" := "lay-99" ]} ]}
                ∅).

(** An artifact that tracks nothing. *)
Definition emptyArtifact : GaladrielBuildType :=
  mkBuild "" (mkTracking ∅ ∅ ∅).

(** A development server that knows two classes. *)
Definition server : DevServer :=
  mkServer "http://127.0.0.1:4000"
    (fun url =>
       if String.eqb url "http://127.0.0.1:4000/collect-utility-class-names/@class/a/none"
       then Ok "x1"
       else if String.eqb url "http://127.0.0.1:4000/collect-utility-class-names/@class/x1/none"
       then Ok "y2"
       else if String.eqb url "http://127.0.0.1:4000/collect-utility-class-names/@class/card/none"
       then Ok "md\:flex"
       else if String.eqb url "http://127.0.0.1:4000/fetch-css"
       then Ok "body{margin:0}"
       else Err (AxiosError url)).

(** A Linux machine on which everything succeeds, and a FreeBSD one. *)
Definition linuxHost : Client.Host :=
  Client.mkHost "linux" "x64" (Some "libc.so.6 => /lib/x86_64-linux-gnu/libc.so.6")
    (Client.Responded 200 (Client.Finished true)) (Client.Closed (Some 0)).


End Samples.

(** * Properties *)

#[local] Arguments append !s1 s2 : simpl nomatch.

(** ** Strings *)

Section Strings.

Lemma append_nil_r (s : string) : s ++ "" = s.
Proof. induction s as [|c s IH]; [reflexivity|]. cbn. now rewrite IH. Qed.

Lemma append_assoc (a b c : string) : (a ++ b) ++ c = a ++ (b ++ c).
Proof. induction a as [|x a IH]; [reflexivity|]. cbn. now rewrite IH. Qed.

Lemma length_append (a b : string) :
  String.length (a ++ b) = String.length a + String.length b.
Proof. induction a as [|x a IH]; [reflexivity|]. cbn. now rewrite IH. Qed.

Lemma stripPrefix_Some (pat s r : string) :
  Js.stripPrefix pat s = Some r -> s = pat ++ r.
Proof.
  revert s. induction pat as [|a pat IH]; intros s H.
  - cbn in H. now inversion H.
  - destruct s as [|b s]; [discriminate|]. cbn in H.
    destruct (Ascii.eqb a b) eqn:E; [|discriminate].
    apply Ascii.eqb_eq in E. subst b. cbn. f_equal. now apply IH.
Qed.

Lemma stripPrefix_append (pat r : string) :
  Js.stripPrefix pat (pat ++ r) = Some r.
Proof.
  induction pat as [|a pat IH]; [reflexivity|].
  cbn. now rewrite Ascii.eqb_refl.
Qed.

Lemma splitFirst_Some (pat s pre post : string) :
  Js.splitFirst pat s = Some (pre, post) -> s = pre ++ pat ++ post.
Proof.
  revert pre. induction s as [|c s IH]; intros pre H.
  - cbn in H. destruct (Js.stripPrefix pat "") eqn:E; [|discriminate].
    inversion H; subst. now apply stripPrefix_Some in E.
  - cbn in H. destruct (Js.stripPrefix pat (String c s)) eqn:E.
    + inversion H; subst. now apply stripPrefix_Some in E.
    + destruct (Js.splitFirst pat s) as [[a b]|] eqn:E'; [|discriminate].
      inversion H; subst. cbn. f_equal. now apply IH.
Qed.

Lemma splitFirst_head (pat s r : string) :
  Js.stripPrefix pat s = Some r -> Js.splitFirst pat s = Some ("", r).
Proof. intros H. destruct s; cbn [Js.splitFirst]; now rewrite H. Qed.

(** An occurrence is found when there is one. *)
Lemma splitFirst_occurs (pat a b : string) :
  exists pre post, Js.splitFirst pat (a ++ pat ++ b) = Some (pre, post).
Proof.
  induction a as [|c a [pre [post IH]]].
  - exists "", b. apply splitFirst_head. exact (stripPrefix_append pat b).
  - destruct (Js.stripPrefix pat (String c a ++ pat ++ b)) eqn:E.
    + exists "", s. now apply splitFirst_head.
    + exists (String c pre), post.
      cbn [append Js.splitFirst] in *. now rewrite E, IH.
Qed.

(** The first occurrence of a text starting with [c] lies right after a
    prefix that has no [c]. *)
Lemma splitFirst_fresh (c : ascii) (pat' pre post : string) :
  Js.hasChar c pre = false ->
  Js.splitFirst (String c pat') (pre ++ String c pat' ++ post)
  = Some (pre, post).
Proof.
  induction pre as [|d pre IH]; intros H.
  - apply splitFirst_head. exact (stripPrefix_append (String c pat') post).
  - cbn in H. apply orb_false_iff in H as [Hd Hpre].
    specialize (IH Hpre).
    cbn [append Js.splitFirst Js.stripPrefix] in *. rewrite Hd.
    now rewrite IH.
Qed.

Lemma getSubstitution_plain (matched pre post template : string) :
  Js.hasChar "$" template = false ->
  Js.getSubstitution matched pre post template = template.
Proof.
  induction template as [|c t IH]; [reflexivity|].
  cbn [Js.hasChar]. intros H. apply orb_false_iff in H as [Hc Ht].
  cbn [Js.getSubstitution]. rewrite Ascii.eqb_sym, Hc. now rewrite IH.
Qed.

Lemma replace_fresh (c : ascii) (pat' pre post r : string) :
  Js.hasChar c pre = false ->
  Js.hasChar "$" r = false ->
  Js.replace (pre ++ String c pat' ++ post) (String c pat') r
  = pre ++ r ++ post.
Proof.
  intros Hpre Hr. unfold Js.replace.
  rewrite splitFirst_fresh by assumption.
  now rewrite getSubstitution_plain.
Qed.

(** A replacement without [$] is put in as it is, wherever the search text
    is found. *)
Lemma replace_plain (text pat r : string) :
  Js.hasChar "$" r = false ->
  Js.replace text pat r = text
  \/ exists pre post,
       text = pre ++ pat ++ post /\ Js.replace text pat r = pre ++ r ++ post.
Proof.
  intros Hr. unfold Js.replace.
  destruct (Js.splitFirst pat text) as [[pre post]|] eqn:E; [|now left].
  right. exists pre, post. split; [now apply splitFirst_Some|].
  now rewrite getSubstitution_plain.
Qed.


Lemma hasChar_removeAll (c : ascii) (s : string) :
  Js.hasChar c (Js.removeAll c s) = false.
Proof.
  induction s as [|d s IH]; [reflexivity|].
  cbn. destruct (Ascii.eqb c d) eqn:E; [assumption|].
  cbn. now rewrite E.
Qed.

End Strings.

(** Both sides of an equation between concatenations, brought to the same
    right-nested form. *)
Ltac string_norm :=
  repeat (progress cbn [append] || rewrite append_assoc
          || rewrite append_nil_r);
  try reflexivity.

(** ** The scan of [REGEX] *)

Section Scanner.

Import Loader.

Lemma spanIdent_spec (s a b : string) :
  spanIdent s = (a, b) -> s = a ++ b /\ allIdent a = true.
Proof.
  revert a b. induction s as [|c s IH]; intros a b H; cbn in H.
  - inversion H; subst. now split.
  - destruct (isIdent c) eqn:Hc.
    + destruct (spanIdent s) as [a' b'] eqn:E. inversion H; subst.
      destruct (IH _ _ eq_refl) as [-> Ha]. split; [reflexivity|].
      cbn. now rewrite Hc.
    + inversion H; subst. now split.
Qed.

(** The run taken is the longest one: what follows does not start with a
    class character. *)
Lemma spanIdent_rest (s a b : string) :
  spanIdent s = (a, b) ->
  match b with "" => True | String c _ => isIdent c = false end.
Proof.
  revert a b. induction s as [|c s IH]; intros a b H; cbn in H.
  - now inversion H.
  - destruct (isIdent c) eqn:Hc.
    + destruct (spanIdent s) as [a' b'] eqn:E. inversion H; subst.
      now apply (IH a').
    + now inversion H; subst.
Qed.

Example isIdent_samples :
  map isIdent ["a"; "z"; "A"; "Z"; "0"; "9"; "_"; "-"]%char = repeat true 8
  /\ map isIdent ["@"; ":"; "/"; " "; "."; "`"; "{"; "["]%char = repeat false 8.
Proof. split; reflexivity. Qed.

Lemma spanIdent_append (a b : string) :
  allIdent a = true ->
  match b with "" => True | String c _ => isIdent c = false end ->
  spanIdent (a ++ b) = (a, b).
Proof.
  intros Ha Hb. induction a as [|c a IH]; cbn in *.
  - destruct b as [|c b]; [reflexivity|]. cbn. now rewrite Hb.
  - apply andb_true_iff in Ha as [Hc Ha]. rewrite Hc, (IH Ha). reflexivity.
Qed.

Lemma matchMarker_Some (s r : string) (ns : Namespace) :
  matchMarker s = Some (ns, r) -> s = "@" ++ marker ns ++ ":" ++ r.
Proof.
  unfold matchMarker. intros H.
  destruct (Js.stripPrefix "@class:" s) eqn:E1.
  { inversion H; subst. now apply stripPrefix_Some in E1. }
  destruct (Js.stripPrefix "@layout:" s) eqn:E2.
  { inversion H; subst. now apply stripPrefix_Some in E2. }
  destruct (Js.stripPrefix "@module:" s) eqn:E3; [|discriminate].
  inversion H; subst. now apply stripPrefix_Some in E3.
Qed.

Lemma matchMarker_marker (ns : Namespace) (r : string) :
  matchMarker ("@" ++ marker ns ++ ":" ++ r) = Some (ns, r).
Proof. destruct ns; reflexivity. Qed.

Lemma identifier_allIdent (s : string) :
  identifier s = true <-> s <> "" /\ allIdent s = true.
Proof.
  destruct s as [|c s]; cbn [identifier]; split.
  - discriminate.
  - now intros [H _].
  - intros H. split; [discriminate|assumption].
  - now intros [_ H].
Qed.

Lemma matchAt_Some (s : string) (m : Match) :
  matchAt s = Some m ->
  wellFormed m /\ exists rest, s = match0 m ++ rest.
Proof.
  unfold matchAt. intros H.
  destruct (matchMarker s) as [[ns r1]|] eqn:Em; [|discriminate].
  apply matchMarker_Some in Em.
  destruct (spanIdent r1) as [name r2] eqn:E1.
  apply spanIdent_spec in E1 as [-> Hname].
  destruct name as [|c name]; [discriminate|].
  set (nm := String c name) in *.
  assert (Hid : identifier nm = true) by exact Hname.
  destruct (Js.stripPrefix "::" r2) as [r3|] eqn:E2.
  - apply stripPrefix_Some in E2. subst r2.
    destruct (spanIdent r3) as [sub r4] eqn:E3.
    apply spanIdent_spec in E3 as [-> Hsub].
    destruct sub as [|d sub].
    + injection H as <-. cbn [match0 p1 p2]. split.
      * split; [|split; [assumption|exact I]].
        exists ns. cbn [subText]. string_norm.
      * exists ("::" ++ r4). subst s. string_norm.
    + injection H as <-. cbn [match0 p1 p2]. split.
      * split; [|split; assumption].
        exists ns. cbn [subText]. string_norm.
      * exists r4. subst s. string_norm.
  - injection H as <-. cbn [match0 p1 p2]. split.
    + split; [|split; [assumption|exact I]].
      exists ns. cbn [subText]. string_norm.
    + exists r2. subst s. string_norm.
Qed.

Lemma wellFormed_at (m : Match) :
  wellFormed m -> exists t, match0 m = String "@" t.
Proof. intros [[ns ->] _]. eexists. reflexivity. Qed.

(** Skipping exactly the characters of a prefix resumes after it. *)
Lemma scan_skip (x r : string) :
  scan (String.length x) (x ++ r) = scan 0 r.
Proof. induction x as [|c x IH]; [reflexivity|]. exact IH. Qed.

Lemma segments_tok (s : string) (m : Match) :
  matchAt s = Some m ->
  exists rest, s = match0 m ++ rest /\ segments s = Tok m :: segments rest.
Proof.
  intros H. destruct (matchAt_Some _ _ H) as [Hwf [rest Hs]].
  exists rest. split; [assumption|].
  destruct (wellFormed_at _ Hwf) as [t Ht].
  unfold segments. rewrite Hs at 1. rewrite Ht at 1. cbn [append scan].
  rewrite Ht in Hs. cbn [append] in Hs. rewrite <- Hs, H.
  rewrite Ht.
  replace (String.length (String "@" t) - 1) with (String.length t)
    by (cbn [String.length]; lia).
  now rewrite scan_skip.
Qed.

Lemma segments_lit (c : ascii) (s : string) :
  matchAt (String c s) = None ->
  segments (String c s) = Lit c :: segments s.
Proof. intros H. unfold segments. cbn [scan]. now rewrite H. Qed.

(** Induction along the scan. *)
Lemma segments_ind (P : string -> Prop) :
  P "" ->
  (forall c s, matchAt (String c s) = None -> P s -> P (String c s)) ->
  (forall m rest, matchAt (match0 m ++ rest) = Some m -> P rest ->
                  P (match0 m ++ rest)) ->
  forall s, P s.
Proof.
  intros Hnil Hlit Htok s.
  remember (String.length s) as n eqn:Hn.
  revert s Hn. induction n as [n IH] using lt_wf_ind. intros s Hn.
  destruct s as [|c s]; [exact Hnil|].
  destruct (matchAt (String c s)) as [m|] eqn:E.
  - destruct (matchAt_Some _ _ E) as [Hwf [rest Hs]].
    rewrite Hs. apply Htok; [now rewrite <- Hs|].
    apply (IH (String.length rest)); [|reflexivity].
    subst n. rewrite Hs, length_append.
    destruct (wellFormed_at _ Hwf) as [t ->]. cbn. lia.
  - apply Hlit; [assumption|].
    apply (IH (String.length s)); [|reflexivity]. subst n. cbn. lia.
Qed.

(** The segments of a scan spell the text out again. *)
Lemma sourceOf_segments (s : string) : sourceOf (segments s) = s.
Proof.
  induction s as [|c s Hnone IH|m rest Hm IH] using segments_ind.
  - reflexivity.
  - rewrite segments_lit by assumption. cbn. now rewrite IH.
  - destruct (segments_tok _ _ Hm) as [rest' [Heq ->]].
    apply String.app_inj in Heq. subst rest'. cbn. now rewrite IH.
Qed.

Lemma tokens_wellFormed (s : string) :
  Forall wellFormed (matchAll s).
Proof.
  unfold matchAll.
  induction s as [|c s Hnone IH|m rest Hm IH] using segments_ind.
  - constructor.
  - rewrite segments_lit by assumption. exact IH.
  - destruct (segments_tok _ _ Hm) as [rest' [Heq ->]].
    apply String.app_inj in Heq. subst rest'. cbn.
    constructor; [|assumption]. now apply matchAt_Some in Hm.
Qed.

End Scanner.

(** ** The loader in production *)

Section Production.

Import Loader.


(** A callback that gives every match its own text back changes nothing. *)
Lemma replaceSegments_same (f : Match -> Result string) (segs : list Segment) :
  (forall m, In m (tokensOf segs) -> f m = Ok (match0 m)) ->
  replaceSegments f segs = Ok (sourceOf segs).
Proof.
  induction segs as [|[c|m] segs IH]; intros H; cbn.
  - reflexivity.
  - now rewrite IH.
  - rewrite (H m) by now left. cbn.
    rewrite IH; [reflexivity|]. intros m' Hm'. apply H. now right.
Qed.

Lemma replaceRegex_same (f : Match -> Result string) (s : string) :
  (forall m, In m (matchAll s) -> f m = Ok (match0 m)) ->
  replaceRegex s f = Ok s.
Proof.
  intros H. unfold replaceRegex.
  rewrite replaceSegments_same by exact H. now rewrite sourceOf_segments.
Qed.

Lemma truthy_true (v : string) : truthy v = true <-> v <> "".
Proof. destruct v; cbn; split; congruence. Qed.

(** The callback on a value that was found, and on one that was not. *)
Lemma replaceCallback_found (tm : option TrackingClasses) (m : Match) (v : string) :
  lookupToken tm m = Ok (Some v) -> truthy v = true ->
  replaceCallback tm m = Ok (Js.removeAll "\" v).
Proof. intros H Hv. unfold replaceCallback. rewrite H. cbn. now rewrite Hv. Qed.


Lemma replaceCallback_missing (tm : option TrackingClasses) (m : Match) :
  lookupToken tm m = Ok None -> replaceCallback tm m = Ok (match0 m).
Proof. intros H. unfold replaceCallback. now rewrite H. Qed.



End Production.

(** ** The loader in development *)

Section Development.

Import Loader.

(** With no promise to wait for, [Promise.all] is fulfilled at once. *)
Lemma settle_no_promises (order : list nat) :
  settle order [] [] = Fulfilled [].
Proof. induction order as [|i order IH]; [reflexivity|exact IH]. Qed.



(** The first rejection, in completion order, rejects the whole. *)
Lemma settle_rejected (outcomes : list (Result string)) (order : list nat)
    (values : list (option string)) (e : JsError) (i : nat) :
  outcomes !! i = Some (Err e) -> In i order ->
  exists e', settle order outcomes values = Rejected e'.
Proof.
  intros Hi. revert values.
  induction order as [|j order IH]; intros values Hin; [destruct Hin|].
  cbn [settle]. destruct (decide (j = i)) as [->|Hne].
  - rewrite Hi. now exists e.
  - destruct Hin as [Heq|Hin]; [congruence|].
    destruct (outcomes !! j) as [[v|e']|]; [now apply IH| now exists e' | now apply IH].
Qed.

Lemma tokensOf_single (segs : list Segment) (m : Match) :
  tokensOf segs = [m] ->
  exists a b, sourceOf segs = a ++ match0 m ++ b.
Proof.
  induction segs as [|[c|m'] segs IH]; intros H; cbn in H.
  - discriminate.
  - destruct (IH H) as [a [b Hab]]. exists (String c a), b. cbn. now rewrite Hab.
  - inversion H; subst. exists "", (sourceOf segs). reflexivity.
Qed.


(** A request that fails makes the whole call fail, whatever the order. *)
Lemma failed_request_rejects (srv : DevServer) (order : list nat) (s : string)
    (i : nat) (m : Match) (e : JsError) :
  matchAll s !! i = Some m ->
  retrieveUtilityClassnames srv (match0 m) = Err e ->
  Permutation order (seq 0 (length (matchAll s))) ->
  exists e', snd (asyncReplaceNenyrMakrup srv order s) = Rejected e'.
Proof.
  intros Hm He Hperm. unfold asyncReplaceNenyrMakrup, promiseAll. cbn [snd].
  set (outcomes := map _ (matchAll s)).
  assert (Hi : outcomes !! i = Some (Err e)).
  { subst outcomes.
    change (map ?f ?l) with (f <$> l). rewrite list_lookup_fmap, Hm.
    cbn. now rewrite He. }
  assert (Hin : In i order).
  { apply (Permutation_in _ (Permutation_sym Hperm)), in_seq.
    apply lookup_lt_Some in Hm. lia. }
  destruct (settle_rejected outcomes order
              (replicate (length outcomes) None) e i Hi Hin) as [e' He'].
  exists e'. now rewrite He'.
Qed.

End Development.

(** ** The claims about the loader *)

Section LoaderClaims.

Import Loader.

(** C1.  A layout or module token whose outer name is absent from the
    artifact is not passed through: reading the inner record of an absent
    outer name throws, and the loader reports the [TypeError] instead of
    the text.  Evaluated on the token [@layout:header::nav] against an
    artifact that tracks nothing. *)
Theorem absent_outer_name_throws :
  galadrielWebpackLoader (Production Samples.emptyArtifact)
    (TextSource "@layout:header::nav")
  = CallbackErr
      (TypeError "Cannot read properties of undefined (reading 'nav')").
Proof. vm_compute. reflexivity. Qed.

(** What does pass through in production: a class token that [central] does
    not have, and a layout or module token whose outer name is there while
    the inner name is not. *)
Lemma missing_entry_kept (t : TrackingClasses) (m : Match) :
  lookupToken (Some t) m = Ok None ->
  replaceCallback (Some t) m = Ok (match0 m).
Proof. apply replaceCallback_missing. Qed.

Lemma absent_outer_name_is_error (outer : gmap string (gmap string string))
    (k1 : string) (k2 : option string) :
  outer !! k1 = None -> exists e, nestedLookup outer k1 k2 = Err e.
Proof. intros H. unfold nestedLookup. rewrite H. eauto. Qed.

(** C8.  A text with neither the directive nor a markup token comes back
    unchanged, in production and in development. *)
Theorem transform_identity_without_markup (env : LoaderEnv) (s : string) :
  Js.includes s DIRECTIVE = false ->
  matchAll s = [] ->
  galadrielWebpackLoader env (TextSource s) = CallbackOk (TextSource s).
Proof.
  intros Hdir Htok. unfold galadrielWebpackLoader. rewrite Hdir.
  destruct env as [data|srv order].
  - unfold replaceNenyrMakrup. rewrite replaceRegex_same; [reflexivity|].
    rewrite Htok. intros m [].
  - unfold asyncReplaceNenyrMakrup. rewrite Htok. cbn [map snd].
    unfold promiseAll. cbn [length replicate].
    now rewrite settle_no_promises.
Qed.

Lemma transform_identity_without_markup_witness :
  galadrielWebpackLoader (Production Samples.artifact)
    (TextSource "const a = user@example.com;")
  = CallbackOk (TextSource "const a = user@example.com;")
  /\ galadrielWebpackLoader (Development Samples.server [2; 0; 1])
       (TextSource "const a = user@example.com;")
     = CallbackOk (TextSource "const a = user@example.com;").
Proof.
  split; apply transform_identity_without_markup; reflexivity.
Defined.


(** C7, as stated, fails on an entry that is the empty string: the entry is
    found, and what takes the token's place is the token's own text, not the
    (empty) stored value. *)
Lemma empty_stored_value_not_substituted :
  lookupToken (Some (trackingClasses Samples.artifact))
    (mkMatch "@class:ghost" "ghost" None) = Ok (Some "")
  /\ replaceCallback (Some (trackingClasses Samples.artifact))
       (mkMatch "@class:ghost" "ghost" None)
     <> Ok (Js.removeAll "\" "")
  /\ replaceNenyrMakrup (Some Samples.artifact) "a @class:ghost b"
     = Ok "a @class:ghost b".
Proof.
  split; [vm_compute; reflexivity|].
  split; [vm_compute; discriminate|vm_compute; reflexivity].
Qed.

(** C7, amended.  In production a token found with a non-empty stored value
    is replaced by that value with every backslash removed, so that no
    backslash is left in it.  In development the response of the server is
    put in as it is, backslashes included: in every step of the loop (a
    response without [$] replaces the text it is substituted for, unchanged),
    and so in the result for a text with one token. *)
Theorem stored_value_unescaped
    (t : TrackingClasses) (m : Match) (v : string)
    (srv : DevServer) (s : string) (m' : Match) (r : string) :
  lookupToken (Some t) m = Ok (Some v) ->
  v <> "" ->
  matchAll s = [m'] ->
  axiosGet srv (requestUrl (GALADRIEL_SERVER_ADDR srv) (match0 m')) = Ok r ->
  Js.hasChar "$" r = false ->
  replaceCallback (Some t) m = Ok (Js.removeAll "\" v)
  /\ Js.hasChar "\" (Js.removeAll "\" v) = false
  /\ (forall text pat,
        Js.replace text pat r = text
        \/ exists pre post,
             text = pre ++ pat ++ post
             /\ Js.replace text pat r = pre ++ r ++ post)
  /\ exists pre post,
       s = pre ++ match0 m' ++ post
       /\ snd (asyncReplaceNenyrMakrup srv [0] s) = Fulfilled (pre ++ r ++ post).
Proof.
  intros Hfound Hv Hone Hget Hr. split; [|split; [|split]].
  - apply replaceCallback_found; [assumption|now apply truthy_true].
  - apply hasChar_removeAll.
  - intros text pat. now apply replace_plain.
  - destruct (tokensOf_single (segments s) m' Hone) as [a [b Hab]].
    rewrite sourceOf_segments in Hab.
    destruct (splitFirst_occurs (match0 m') a b) as [pre [post Hsplit]].
    rewrite <- Hab in Hsplit. exists pre, post.
    split; [now apply splitFirst_Some|].
    unfold asyncReplaceNenyrMakrup. rewrite Hone. cbn [map snd].
    unfold retrieveUtilityClassnames. rewrite Hget.
    cbn. unfold Js.replace. rewrite Hsplit.
    now rewrite getSubstitution_plain.
Qed.

Lemma stored_value_unescaped_witness :
  replaceCallback (Some (trackingClasses Samples.artifact))
    (mkMatch "@class:card" "card" None) = Ok "md:flex"
  /\ exists pre post,
       "<p class='@class:card'>" = pre ++ "@class:card" ++ post
       /\ snd (asyncReplaceNenyrMakrup Samples.server [0] "<p class='@class:card'>")
          = Fulfilled (pre ++ "md\:flex" ++ post).
Proof.
  destruct (stored_value_unescaped (trackingClasses Samples.artifact)
              (mkMatch "@class:card" "card" None) "md\:flex" Samples.server
              "<p class='@class:card'>" (mkMatch "@class:card" "card" None)
              "md\:flex") as (H1 & _ & _ & H4);
    [vm_compute; reflexivity | discriminate | reflexivity
    | reflexivity | reflexivity | ].
  split; [exact H1 | exact H4].
Defined.

(** C2, as stated, fails: a text with the directive and a token has only the
    directive rewritten; resolving the tokens of the modified text would
    have given another text. *)
Lemma directive_hides_tokens :
  galadrielWebpackLoader (Production Samples.artifact)
    (TextSource "@galadrielcss styles; @class:button")
  = CallbackOk (TextSource "body{margin:0} @class:button")
  /\ directiveThenTokens Samples.artifact "@galadrielcss styles; @class:button"
     = CallbackOk (TextSource "body{margin:0} btn-1a2b")
  /\ galadrielWebpackLoader (Production Samples.artifact)
       (TextSource "@galadrielcss styles; @class:button")
     <> directiveThenTokens Samples.artifact "@galadrielcss styles; @class:button".
Proof.
  split; [vm_compute; reflexivity|].
  split; [vm_compute; reflexivity|vm_compute; discriminate].
Qed.

(** C2, amended.  A text that contains the directive has the directive, and
    nothing else, rewritten: the text before and after it, tokens included,
    is returned as it is, in production (from a non-empty [css]) and in
    development (from the fetched stylesheet).  Tokens are extracted and
    resolved only in a text without the directive. *)
Theorem directive_excludes_tokens
    (data : GaladrielBuildType) (srv : DevServer) (order : list nat)
    (s s' cssText : string) :
  Js.includes s DIRECTIVE = true ->
  css data <> "" ->
  Js.hasChar "$" (css data) = false ->
  axiosGet srv (GALADRIEL_SERVER_ADDR srv ++ "/fetch-css") = Ok cssText ->
  Js.hasChar "$" cssText = false ->
  Js.includes s' DIRECTIVE = false ->
  (exists pre post,
      s = pre ++ DIRECTIVE ++ post
      /\ galadrielWebpackLoader (Production data) (TextSource s)
         = CallbackOk (TextSource (pre ++ css data ++ post))
      /\ galadrielWebpackLoader (Development srv order) (TextSource s)
         = CallbackOk (TextSource (pre ++ cssText ++ post)))
  /\ galadrielWebpackLoader (Production data) (TextSource s')
     = ofResult (replaceNenyrMakrup (Some data) s')
  /\ galadrielWebpackLoader (Development srv order) (TextSource s')
     = ofSettled (snd (asyncReplaceNenyrMakrup srv order s')).
Proof.
  intros Hdir Hcss Hplain Hget Hplain' Hnodir. split.
  - unfold Js.includes in Hdir.
    destruct (Js.splitFirst DIRECTIVE s) as [[pre post]|] eqn:E; [|discriminate].
    exists pre, post. split; [now apply splitFirst_Some|].
    unfold galadrielWebpackLoader, Js.includes. rewrite E. split.
    + unfold replaceCss. apply truthy_true in Hcss. rewrite Hcss.
      unfold Js.replace. rewrite E. now rewrite getSubstitution_plain.
    + unfold asyncReplaceCss. rewrite Hget. cbn [bindR ofResult].
      unfold Js.replace. rewrite E. now rewrite getSubstitution_plain.
  - unfold galadrielWebpackLoader. rewrite Hnodir. now split.
Qed.

Lemma directive_excludes_tokens_witness :
  (exists pre post,
      "@galadrielcss styles; @class:button" = pre ++ DIRECTIVE ++ post
      /\ galadrielWebpackLoader (Production Samples.artifact)
           (TextSource "@galadrielcss styles; @class:button")
         = CallbackOk (TextSource (pre ++ css Samples.artifact ++ post))
      /\ galadrielWebpackLoader (Development Samples.server [0])
           (TextSource "@galadrielcss styles; @class:button")
         = CallbackOk (TextSource (pre ++ "body{margin:0}" ++ post)))
  /\ galadrielWebpackLoader (Production Samples.artifact)
       (TextSource "x @class:button")
     = ofResult (replaceNenyrMakrup (Some Samples.artifact) "x @class:button")
  /\ galadrielWebpackLoader (Development Samples.server [0])
       (TextSource "x @class:button")
     = ofSettled (snd (asyncReplaceNenyrMakrup Samples.server [0] "x @class:button")).
Proof.
  apply (directive_excludes_tokens Samples.artifact Samples.server [0]
           "@galadrielcss styles; @class:button" "x @class:button"
           "body{margin:0}");
    [reflexivity | discriminate | reflexivity | reflexivity
    | reflexivity | reflexivity].
Defined.

(** A text that is exactly one well-formed token is matched whole. *)
Lemma matchAt_token (ns : Namespace) (name : string) (sub : option string) :
  identifier name = true ->
  match sub with Some x => identifier x = true | None => True end ->
  matchAt ("@" ++ marker ns ++ ":" ++ name ++ subText sub)
  = Some (mkMatch ("@" ++ marker ns ++ ":" ++ name ++ subText sub) name sub).
Proof.
  intros Hname Hsub. unfold matchAt. rewrite matchMarker_marker.
  apply identifier_allIdent in Hname as [Hne Hall].
  destruct sub as [sub|]; cbn [subText].
  - apply identifier_allIdent in Hsub as [Hne' Hall'].
    rewrite (spanIdent_append name ("::" ++ sub) Hall) by reflexivity.
    destruct name as [|c name]; [congruence|].
    cbn [Js.stripPrefix append Ascii.eqb Bool.eqb].
    rewrite <- (append_nil_r sub) at 1.
    rewrite (spanIdent_append sub "" Hall' I).
    destruct sub as [|d sub]; [congruence|].
    f_equal. f_equal. string_norm.
  - rewrite (spanIdent_append name "" Hall I).
    destruct name as [|c name]; [congruence|].
    cbn [Js.stripPrefix]. f_equal. f_equal. string_norm.
Qed.

Lemma matchAll_token (ns : Namespace) (name : string) (sub : option string) :
  identifier name = true ->
  match sub with Some x => identifier x = true | None => True end ->
  matchAll ("@" ++ marker ns ++ ":" ++ name ++ subText sub)
  = [mkMatch ("@" ++ marker ns ++ ":" ++ name ++ subText sub) name sub].
Proof.
  intros Hname Hsub. pose proof (matchAt_token ns name sub Hname Hsub) as H.
  destruct (segments_tok _ _ H) as [rest [Heq Hseg]].
  unfold matchAll. rewrite Hseg. cbn [match0] in Heq.
  rewrite <- (append_nil_r ("@" ++ marker ns ++ ":" ++ name ++ subText sub)) in Heq at 1.
  apply String.app_inj in Heq. subst rest. reflexivity.
Qed.

(** C9, as stated, fails: the pattern matches a class token with a sub-name
    and a layout token without one. *)
Lemma grammar_not_kind_specific :
  matchAll "@class:btn::x" = [mkMatch "@class:btn::x" "btn" (Some "x")]
  /\ matchAll "@layout:header" = [mkMatch "@layout:header" "header" None]
  /\ ~ Forall kindSpecific (matchAll "@class:btn::x")
  /\ ~ Forall kindSpecific (matchAll "@layout:header").
Proof.
  split; [reflexivity|]. split; [reflexivity|].
  split; intros H; inversion H as [|? ? Hk _]; subst; cbv in Hk; congruence.
Qed.

(** C9, amended.  The pattern is the same for the three namespaces: marker,
    colon and a name, then optionally [::] and a sub-name, whatever the
    namespace.  Every match has that shape, with non-empty identifiers of
    class characters; and for each namespace both forms are matched, the one
    without a sub-name and the one with it. *)
Theorem token_grammar
    (s : string) (m : Match) (ns : Namespace) (name sub : string) :
  In m (matchAll s) ->
  identifier name = true ->
  identifier sub = true ->
  ((exists ns', match0 m = "@" ++ marker ns' ++ ":" ++ p1 m ++ subText (p2 m))
   /\ identifier (p1 m) = true
   /\ match p2 m with Some x => identifier x = true | None => True end)
  /\ matchAll ("@" ++ marker ns ++ ":" ++ name)
     = [mkMatch ("@" ++ marker ns ++ ":" ++ name) name None]
  /\ matchAll ("@" ++ marker ns ++ ":" ++ name ++ "::" ++ sub)
     = [mkMatch ("@" ++ marker ns ++ ":" ++ name ++ "::" ++ sub) name (Some sub)].
Proof.
  intros Hin Hname Hsub. split; [|split].
  - pose proof (tokens_wellFormed s) as Hall.
    rewrite Forall_forall in Hall. apply Hall. now apply list_elem_of_In.
  - pose proof (matchAll_token ns name None Hname I) as H.
    cbn [subText] in H. now rewrite append_nil_r in H.
  - exact (matchAll_token ns name (Some sub) Hname Hsub).
Qed.

Lemma token_grammar_witness :
  ((exists ns', "@module:card::title"
                = "@" ++ marker ns' ++ ":" ++ "card" ++ subText (Some "title"))
   /\ identifier "card" = true
   /\ identifier "title" = true)
  /\ matchAll ("@" ++ marker NsClass ++ ":" ++ "btn-1")
     = [mkMatch ("@" ++ marker NsClass ++ ":" ++ "btn-1") "btn-1" None]
  /\ matchAll ("@" ++ marker NsClass ++ ":" ++ "btn-1" ++ "::" ++ "x_2")
     = [mkMatch ("@" ++ marker NsClass ++ ":" ++ "btn-1" ++ "::" ++ "x_2")
          "btn-1" (Some "x_2")].
Proof.
  apply (token_grammar "<div class='@module:card::title'>"
           (mkMatch "@module:card::title" "card" (Some "title"))
           NsClass "btn-1" "x_2");
    [vm_compute; tauto | reflexivity | reflexivity].
Defined.




End LoaderClaims.

(** ** The claims about the plugin *)

Section ClientClaims.

Import Client.

(** C4, as stated, fails: on darwin every architecture without [x64] in its
    name is given the arm64 distribution, so such a pair is not
    unsupported. *)
Lemma darwin_other_architecture_supported :
  verifyOS "darwin" "ia32" None = Some "aarch64-apple-darwin"
  /\ verifyOS "darwin" "ia32" None <> None.
Proof. split; [reflexivity|discriminate]. Qed.

(** C4, amended.  [verifyOS] is a function of the platform, the architecture
    and the probe: the five listed pairs map as listed, Linux falling back to
    the glibc distribution when the probe output has no [musl] or the probe
    fails; on darwin every architecture without [x64] in its name maps to
    aarch64-apple-darwin; a platform other than darwin is unsupported with
    an architecture without [x64], and a platform other than darwin, win32
    and linux is unsupported with every architecture. *)
Theorem platform_resolution
    (os os' architecture anyArch muslOut otherOut : string)
    (ldd : option string) :
  Js.includes muslOut "musl" = true ->
  Js.includes otherOut "musl" = false ->
  Js.includes architecture "x64" = false ->
  os <> "darwin" ->
  os' <> "darwin" -> os' <> "win32" -> os' <> "linux" ->
  verifyOS "darwin" "arm64" ldd = Some "aarch64-apple-darwin"
  /\ verifyOS "darwin" "x64" ldd = Some "x86_64-apple-darwin"
  /\ verifyOS "win32" "x64" ldd = Some "x86_64-pc-windows-msvc"
  /\ verifyOS "linux" "x64" (Some muslOut) = Some "x86_64-unknown-linux-musl"
  /\ verifyOS "linux" "x64" (Some otherOut) = Some "x86_64-unknown-linux-gnu"
  /\ verifyOS "linux" "x64" None = Some "x86_64-unknown-linux-gnu"
  /\ verifyOS "darwin" architecture ldd = Some "aarch64-apple-darwin"
  /\ verifyOS os architecture ldd = None
  /\ verifyOS os' anyArch ldd = None.
Proof.
  intros Hmusl Hother Harch Hos H1 H2 H3.
  apply String.eqb_neq in Hos, H1, H2, H3.
  repeat split.
  - cbn. now rewrite Hmusl.
  - cbn. now rewrite Hother.
  - unfold verifyOS. cbn [String.eqb Ascii.eqb Bool.eqb]. now rewrite Harch.
  - unfold verifyOS. rewrite Hos, Harch. now rewrite !andb_false_r.
  - unfold verifyOS. now rewrite H1, H2, H3.
Qed.

Lemma platform_resolution_witness :
  verifyOS "darwin" "arm64" None = Some "aarch64-apple-darwin"
  /\ verifyOS "darwin" "x64" None = Some "x86_64-apple-darwin"
  /\ verifyOS "win32" "x64" None = Some "x86_64-pc-windows-msvc"
  /\ verifyOS "linux" "x64" (Some "libc.musl-x86_64.so.1 => /lib/ld-musl-x86_64.so.1")
     = Some "x86_64-unknown-linux-musl"
  /\ verifyOS "linux" "x64" (Some "libc.so.6 => /lib/x86_64-linux-gnu/libc.so.6")
     = Some "x86_64-unknown-linux-gnu"
  /\ verifyOS "linux" "x64" None = Some "x86_64-unknown-linux-gnu"
  /\ verifyOS "darwin" "ppc64" None = Some "aarch64-apple-darwin"
  /\ verifyOS "linux" "ppc64" None = None
  /\ verifyOS "freebsd" "x64" None = None.
Proof.
  apply (platform_resolution "linux" "freebsd" "ppc64" "x64"
           "libc.musl-x86_64.so.1 => /lib/ld-musl-x86_64.so.1"
           "libc.so.6 => /lib/x86_64-linux-gnu/libc.so.6" None);
    first [reflexivity | discriminate].
Defined.

(** The earlier [verifyOS] of [src/index.ts] has no fallback: a failed or
    inconclusive probe leaves Linux unsupported. *)
Lemma legacy_probe_without_fallback (out : string) :
  Js.includes out "musl" = false ->
  Js.includes out "libc.so" = false ->
  Legacy.verifyOS "linux" "x64" (Some out) = None
  /\ Legacy.verifyOS "linux" "x64" None = None.
Proof. intros H1 H2. cbn. now rewrite H1, H2. Qed.

(** *** Install and build *)







(** The earlier [beforeRun] tap of [src/index.ts] has no [try]: a rejected
    step rejects the hook, and on an unsupported platform the install
    promise, and the hook with it, never settles. *)
Lemma legacy_tap_propagates (h : Legacy.Host) (e : JsError) :
  (Legacy.installGaladrielCss h = Loader.Rejected e ->
   Legacy.beforeRunTap h = Loader.Rejected e)
  /\ (Legacy.verifyOS (Legacy.platform h) (Legacy.arch h) (Legacy.lddProbe h) = None ->
      Legacy.beforeRunTap h = Loader.Pending).
Proof.
  unfold Legacy.beforeRunTap. split.
  - now intros ->.
  - intros H. unfold Legacy.installGaladrielCss. now rewrite H.
Qed.

(** *** The flags *)

Lemma handleBeforeRun_counts (h : Host) :
  length (List.filter isInstall (fst (handleBeforeRun h))) = 1
  /\ length (List.filter isBuild (fst (handleBeforeRun h))) <= 1
  /\ List.filter isRemove (fst (handleBeforeRun h)) = [].
Proof.
  unfold handleBeforeRun, installThenBuild, installGaladrielCss,
    startGaladrielBuild.
  destruct (verifyOS (platform h) (arch h) (lddProbe h)) as [patch|];
    [|cbn; repeat split; lia].
  destruct (download h) as [e|status [e|[|]]];
    try destruct (Nat.eqb status 200); cbn [negb];
    try destruct (buildProcess h) as [[[|code]|]|msg];
    cbn; repeat split; lia.
Qed.

Lemma countEffect_app (P : Effect -> bool) (st : State) (fx : list Effect) :
  length (List.filter P (effects st ++ fx)%list)
  = countEffect P st + length (List.filter P fx).
Proof. unfold countEffect. now rewrite List.filter_app, length_app. Qed.

(** What one run of each tap changes. *)
Lemma runBeforeRunTap_spec (h : Host) (st : State) :
  let st' := runBeforeRunTap h st in
  hasRunGaladrielBuild st' = hasRunGaladrielBuild st
  /\ hasRemovedGaladrielDir st' = hasRemovedGaladrielDir st
  /\ beforeRunTaps st' = beforeRunTaps st
  /\ installs st' = S (installs st)
  /\ builds st' <= S (builds st)
  /\ builds st' - builds st <= 1
  /\ removals st' = removals st.
Proof.
  unfold runBeforeRunTap, installs, builds, removals.
  destruct (handleBeforeRun_counts h) as (Hi & Hb & Hr).
  destruct (handleBeforeRun h) as [fx r]. cbn [fst] in *.
  cbn [hasRunGaladrielBuild hasRemovedGaladrielDir beforeRunTaps].
  repeat split.
  - unfold countEffect at 1. cbn [effects]. rewrite countEffect_app. lia.
  - unfold countEffect at 1. cbn [effects]. rewrite countEffect_app. lia.
  - unfold countEffect at 1. cbn [effects]. rewrite countEffect_app. lia.
  - unfold countEffect at 1. cbn [effects]. rewrite countEffect_app, Hr.
    cbn. lia.
Qed.

Lemma cleanupAfterBuild_spec (st : State) :
  let st' := cleanupAfterBuild st in
  hasRunGaladrielBuild st' = hasRunGaladrielBuild st
  /\ hasRemovedGaladrielDir st' = true
  /\ beforeRunTaps st' = beforeRunTaps st
  /\ installs st' = installs st
  /\ builds st' = builds st
  /\ (hasRemovedGaladrielDir st = true -> removals st' = removals st)
  /\ removals st' <= S (removals st).
Proof.
  unfold cleanupAfterBuild, removeGaladrielTempFolder, installs, builds, removals.
  destruct (hasRemovedGaladrielDir st) eqn:E; cbn [dirExists].
  - rewrite E. repeat split; lia.
  - destruct (dirExists st);
      cbn [hasRunGaladrielBuild hasRemovedGaladrielDir beforeRunTaps];
      repeat split; try discriminate; try lia;
      unfold countEffect at 1; cbn [effects];
      rewrite ?countEffect_app; cbn; unfold countEffect; lia.
Qed.

Lemma iter_preserves (P : State -> Prop) (f : State -> State) (n : nat) :
  (forall st, P st -> P (f st)) -> forall st, P st -> P (iter n f st).
Proof.
  intros Hf. induction n as [|n IH]; intros st H; [exact H|].
  cbn. apply IH, Hf, H.
Qed.

Lemma run_app (st : State) (a b : list Event) :
  run st (a ++ b)%list = run (run st a) b.
Proof. unfold run. apply fold_left_app. Qed.

Lemma setupProductionHooks_guarded (c : nat) (st : State) :
  guarded st -> guarded (setupProductionHooks c st).
Proof.
  unfold guarded, setupProductionHooks, installs, builds, removals, countEffect.
  intros (Hlen & Hnil & Hrem & Hzero & Hb).
  destruct (hasRunGaladrielBuild st) eqn:E; cbn.
  - rewrite E. repeat split; first [assumption | discriminate].
  - rewrite (Hnil eq_refl). cbn.
    repeat split; first [assumption | discriminate | lia].
Qed.

Lemma runBeforeRunTap_guarded (h : Host) (st : State) :
  guarded st -> guarded (runBeforeRunTap h st).
Proof.
  intros (Hlen & Hnil & Hrem & Hzero & Hb).
  destruct (runBeforeRunTap_spec h st) as (H1 & H2 & H3 & H4 & H5 & _ & H7).
  unfold guarded. rewrite H1, H2, H3, H4, H7.
  repeat split; try assumption. lia.
Qed.

Lemma cleanupAfterBuild_guarded (st : State) :
  guarded st -> guarded (cleanupAfterBuild st).
Proof.
  intros (Hlen & Hnil & Hrem & Hzero & Hb).
  destruct (cleanupAfterBuild_spec st) as (H1 & H2 & H3 & H4 & H5 & H6 & H7).
  unfold guarded. rewrite H1, H2, H3, H4, H5.
  repeat split; try assumption; try discriminate.
  destruct (hasRemovedGaladrielDir st) eqn:E.
  - rewrite (H6 eq_refl). exact Hrem.
  - rewrite (Hzero eq_refl) in H7. exact H7.
Qed.

Lemma step_guarded (st : State) (ev : Event) :
  guarded st -> guarded (step st ev).
Proof.
  destruct ev as [[|] c|c h|c]; cbn [step apply]; intros H.
  - now apply setupProductionHooks_guarded.
  - exact H.
  - apply iter_preserves; [apply runBeforeRunTap_guarded|exact H].
  - apply iter_preserves; [apply cleanupAfterBuild_guarded|exact H].
Qed.

Lemma run_guarded (trace : list Event) (st : State) :
  guarded st -> guarded (run st trace).
Proof.
  revert st. induction trace as [|ev trace IH]; intros st H; [exact H|].
  cbn. apply IH, step_guarded, H.
Qed.

Lemma initial_guarded : guarded initial.
Proof. unfold guarded. cbn. repeat split; lia. Qed.

(** A flag that is set stays set. *)
Lemma step_flags (st : State) (ev : Event) :
  (hasRunGaladrielBuild st = true -> hasRunGaladrielBuild (step st ev) = true)
  /\ (hasRemovedGaladrielDir st = true ->
      hasRemovedGaladrielDir (step st ev) = true).
Proof.
  destruct ev as [[|] c|c h|c]; cbn [step apply].
  - unfold setupProductionHooks.
    destruct (hasRunGaladrielBuild st) eqn:E; cbn; [now rewrite E|].
    split; [discriminate|trivial].
  - now split.
  - apply (iter_preserves
             (fun st' => (hasRunGaladrielBuild st = true ->
                          hasRunGaladrielBuild st' = true)
                         /\ (hasRemovedGaladrielDir st = true ->
                             hasRemovedGaladrielDir st' = true)));
      [|now split].
    intros st' [Ha Hb].
    destruct (runBeforeRunTap_spec h st') as (H1 & H2 & _).
    rewrite H1, H2. now split.
  - apply (iter_preserves
             (fun st' => (hasRunGaladrielBuild st = true ->
                          hasRunGaladrielBuild st' = true)
                         /\ (hasRemovedGaladrielDir st = true ->
                             hasRemovedGaladrielDir st' = true)));
      [|now split].
    intros st' [Ha Hb].
    destruct (cleanupAfterBuild_spec st') as (H1 & H2 & _).
    rewrite H1, H2. now split.
Qed.

Lemma run_flags (trace : list Event) (st : State) :
  (hasRunGaladrielBuild st = true -> hasRunGaladrielBuild (run st trace) = true)
  /\ (hasRemovedGaladrielDir st = true ->
      hasRemovedGaladrielDir (run st trace) = true).
Proof.
  revert st. induction trace as [|ev trace IH]; intros st; [now split|].
  cbn. destruct (IH (step st ev)) as [Ha Hb].
  destruct (step_flags st ev) as [Hc Hd]. split; auto.
Qed.

(** Firing a hook changes neither the first flag nor the [beforeRun] taps;
    it adds one install per tap run, and none for a cleanup. *)
Lemma iter_runBeforeRunTap (h : Host) (n : nat) (st : State) :
  let st' := iter n (runBeforeRunTap h) st in
  hasRunGaladrielBuild st' = hasRunGaladrielBuild st
  /\ beforeRunTaps st' = beforeRunTaps st
  /\ installs st' = installs st + n.
Proof.
  revert st. induction n as [|n IH]; intros st; cbn.
  - repeat split; lia.
  - destruct (IH (runBeforeRunTap h st)) as (H1 & H2 & H3).
    destruct (runBeforeRunTap_spec h st) as (H4 & _ & H5 & H6 & _).
    rewrite H1, H2, H3, H4, H5, H6. repeat split; lia.
Qed.

Lemma iter_cleanupAfterBuild (n : nat) (st : State) :
  let st' := iter n cleanupAfterBuild st in
  hasRunGaladrielBuild st' = hasRunGaladrielBuild st
  /\ beforeRunTaps st' = beforeRunTaps st
  /\ installs st' = installs st.
Proof.
  revert st. induction n as [|n IH]; intros st; cbn.
  - repeat split; lia.
  - destruct (IH (cleanupAfterBuild st)) as (H1 & H2 & H3).
    destruct (cleanupAfterBuild_spec st) as (H4 & _ & H5 & H6 & _).
    rewrite H1, H2, H3, H4, H5, H6. repeat split; lia.
Qed.

(** Once the tap is placed, the installs are the firings of its compiler. *)
Lemma installs_after_tap (c0 : nat) (trace : list Event) :
  forall st,
    hasRunGaladrielBuild st = true ->
    beforeRunTaps st = [c0] ->
    installs (run st trace) = installs st + firings c0 trace.
Proof.
  induction trace as [|ev trace IH]; intros st Hrun Htaps.
  - cbn. unfold firings. cbn. lia.
  - cbn [run fold_left]. change (fold_left step trace (step st ev))
      with (run (step st ev) trace).
    destruct ev as [[|] c|c h|c]; cbn [step apply].
    + assert (setupProductionHooks c st
              = mkState true (hasRemovedGaladrielDir st) [c0]
                  (doneTaps st ++ [c])%list (dirExists st) (effects st)) as ->.
      { unfold setupProductionHooks. rewrite Hrun. cbn. now rewrite Hrun, Htaps. }
      rewrite IH by reflexivity. unfold firings. cbn. reflexivity.
    + rewrite IH by assumption. unfold firings. cbn. reflexivity.
    + destruct (iter_runBeforeRunTap h (tapsOn c (beforeRunTaps st)) st)
        as (H1 & H2 & H3).
      rewrite IH by congruence. rewrite H3, Htaps.
      unfold firings, tapsOn. cbn [List.filter].
      rewrite (Nat.eqb_sym c c0).
      destruct (Nat.eqb c0 c); cbn [length]; lia.
    + destruct (iter_cleanupAfterBuild (tapsOn c (doneTaps st)) st)
        as (H1 & H2 & H3).
      rewrite IH by congruence. rewrite H3. unfold firings. cbn. reflexivity.
Qed.

(** Before the tap is placed no firing installs anything. *)
Lemma installs_before_tap (trace : list Event) :
  forall st,
    hasRunGaladrielBuild st = false ->
    beforeRunTaps st = [] ->
    (forall c, firings c trace <= 1) ->
    installs (run st trace) <= installs st + 1.
Proof.
  induction trace as [|ev trace IH]; intros st Hrun Htaps Hfire.
  - cbn. lia.
  - cbn [run fold_left]. change (fold_left step trace (step st ev))
      with (run (step st ev) trace).
    destruct ev as [[|] c|c h|c]; cbn [step apply].
    + assert (setupProductionHooks c st
              = mkState true (hasRemovedGaladrielDir st) [c]
                  (doneTaps st ++ [c])%list (dirExists st) (effects st)) as ->.
      { unfold setupProductionHooks. rewrite Hrun. cbn. now rewrite Htaps. }
      rewrite (installs_after_tap c) by reflexivity.
      specialize (Hfire c). unfold firings in *. cbn in Hfire.
      unfold installs, countEffect in *. cbn [effects]. lia.
    + apply IH; [assumption|assumption|exact Hfire].
    + rewrite Htaps. cbn [tapsOn List.filter length iter].
      apply IH; try assumption. intros c'. specialize (Hfire c').
      unfold firings in *. cbn [List.filter] in Hfire.
      destruct (Nat.eqb c c'); cbn [length] in Hfire; lia.
    + destruct (iter_cleanupAfterBuild (tapsOn c (doneTaps st)) st)
        as (H1 & H2 & H3).
      rewrite <- H3. apply IH; [congruence|congruence|].
      intros c'. specialize (Hfire c'). unfold firings in *. cbn in Hfire.
      exact Hfire.
Qed.

(** C5, as stated, fails: the flag guards the placing of the tap, not its
    runs, so a [beforeRun] hook that fires twice installs and builds twice. *)
Lemma hook_fired_twice_installs_twice :
  installs (run initial [Apply true 0;
                         FireBeforeRun 0 Samples.linuxHost;
                         FireBeforeRun 0 Samples.linuxHost]) = 2
  /\ builds (run initial [Apply true 0;
                          FireBeforeRun 0 Samples.linuxHost;
                          FireBeforeRun 0 Samples.linuxHost]) = 2.
Proof. split; reflexivity. Qed.

(** C5, amended.  The two flags only go from false to true.  However often
    the plugin is applied in one process, the install and build tap is
    placed on at most one compiler, the first one, and installs once per
    firing of that compiler's [beforeRun] hook; so when no compiler fires
    its [beforeRun] hook more than once there is at most one install, and
    never more builds than installs; and however often the [done] hooks
    fire, the folder is removed at most once. *)
Theorem lifecycle_guard (before after : list Event) (first : nat) :
  (hasRunGaladrielBuild (run initial before) = true ->
   hasRunGaladrielBuild (run initial (before ++ after)%list) = true)
  /\ (hasRemovedGaladrielDir (run initial before) = true ->
      hasRemovedGaladrielDir (run initial (before ++ after)%list) = true)
  /\ length (beforeRunTaps (run initial (before ++ after)%list)) <= 1
  /\ removals (run initial (before ++ after)%list) <= 1
  /\ builds (run initial (before ++ after)%list)
     <= installs (run initial (before ++ after)%list)
  /\ installs (run initial (Apply true first :: after)) = firings first after
  /\ ((forall c, firings c (before ++ after)%list <= 1) ->
      installs (run initial (before ++ after)%list) <= 1).
Proof.
  destruct (run_guarded (before ++ after)%list initial initial_guarded)
    as (Hlen & _ & Hrem & _ & Hb).
  destruct (run_flags after (run initial before)) as [Ha Hc].
  rewrite <- !run_app in Ha, Hc.
  split; [exact Ha|]. split; [exact Hc|]. split; [exact Hlen|].
  split; [exact Hrem|]. split; [exact Hb|]. split.
  - change (run initial (Apply true first :: after))
      with (run (setupProductionHooks first initial) after).
    now rewrite (installs_after_tap first after) by reflexivity.
  - intros Hfire.
    exact (installs_before_tap (before ++ after)%list initial
             eq_refl eq_refl Hfire).
Qed.

Lemma lifecycle_guard_witness :
  installs (run initial ([Apply true 0; Apply true 1; FireBeforeRun 0 Samples.linuxHost]
                         ++ [FireBeforeRun 1 Samples.linuxHost; FireDone 0; FireDone 1;
                             FireDone 0])%list) <= 1
  /\ removals (run initial ([Apply true 0; Apply true 1; FireBeforeRun 0 Samples.linuxHost]
                            ++ [FireBeforeRun 1 Samples.linuxHost; FireDone 0; FireDone 1;
                                FireDone 0])%list) <= 1.
Proof.
  destruct (lifecycle_guard
              [Apply true 0; Apply true 1; FireBeforeRun 0 Samples.linuxHost]
              [FireBeforeRun 1 Samples.linuxHost; FireDone 0; FireDone 1; FireDone 0]
              0)
    as (_ & _ & _ & Hrem & _ & _ & Hinst).
  split; [|exact Hrem].
  apply Hinst. intros c. unfold firings. cbn.
  destruct c as [|[|c]]; cbn; lia.
Defined.

End ClientClaims.

(** ** The registration of the loader *)

Section RegistrationProperties.

Import Registration.

Lemma existsb_eqb_In (x : string) (l : list string) :
  existsb (String.eqb x) l = true <-> In x l.
Proof.
  rewrite existsb_exists. split.
  - intros [y [Hin Heq]]. apply String.eqb_eq in Heq. now subst.
  - intros Hin. exists x. split; [assumption|apply String.eqb_refl].
Qed.

Lemma extensionHere_spec (t : string) :
  extensionHere t = true <-> exists ext, In ext EXTENSIONS /\ t = "." ++ ext.
Proof.
  destruct t as [|c ext]; cbn [extensionHere]; split.
  - discriminate.
  - intros [ext [_ H]]. discriminate H.
  - intros H. apply andb_true_iff in H as [Hc Hext].
    apply Ascii.eqb_eq in Hc. subst c.
    exists ext. split; [now apply existsb_eqb_In|reflexivity].
  - intros [ext' [Hin H]]. injection H as -> ->.
    apply andb_true_iff. split; [reflexivity|now apply existsb_eqb_In].
Qed.

(** X1.  [shouldProcessFile] accepts exactly the names that end in a dot
    followed by one of [js], [jsx], [ts], [tsx], [css], [md], [mdx]: the
    extension has to be the very end of the name, in lower case, and a name
    with anything after it (a query, another extension) is refused. *)
Theorem shouldProcessFile_extension (filename : string) :
  shouldProcessFile filename = true
  <-> exists base ext,
        In ext EXTENSIONS /\ filename = base ++ "." ++ ext.
Proof.
  induction filename as [|c rest IH]; cbn [shouldProcessFile].
  - split; [discriminate|].
    intros [base [ext [_ H]]]. destruct base; discriminate H.
  - rewrite orb_true_iff, IH, extensionHere_spec. split.
    + intros [[ext [Hin H]]|[base [ext [Hin H]]]].
      * exists "", ext. now split.
      * exists (String c base), ext. split; [assumption|]. cbn. now rewrite H.
    + intros [base [ext [Hin H]]]. destruct base as [|d base].
      * left. exists ext. now split.
      * right. cbn in H. injection H as -> H. exists base, ext. now split.
Qed.

Lemma hasLoader_app (p : string) (a b : list LoaderItem) :
  hasLoader p (a ++ b)%list = hasLoader p a || hasLoader p b.
Proof. unfold hasLoader. apply existsb_app. Qed.

Lemma hasLoader_galadrielItem (p : string) : hasLoader p [galadrielItem p] = true.
Proof. unfold hasLoader. cbn. now rewrite String.eqb_refl. Qed.

(** X2.  [processNormalModuleRequest] keeps the request and the loaders that
    are there, in their order; for a file it should process it makes sure
    the loader is in the chain, pushing it at the end when no entry has its
    path and changing nothing when one has; a file it should not process is
    left as it is; and a second call changes nothing more. *)
Theorem processNormalModuleRequest_once (p : string) (m : NormalModule) :
  userRequest (processNormalModuleRequest p m) = userRequest m
  /\ (loaders (processNormalModuleRequest p m) = loaders m
      \/ (hasLoader p (loaders m) = false
          /\ loaders (processNormalModuleRequest p m)
             = (loaders m ++ [galadrielItem p])%list))
  /\ hasLoader p (loaders (processNormalModuleRequest p m))
     = shouldProcessFile (userRequest m) || hasLoader p (loaders m)
  /\ length (List.filter (fun item => String.eqb (loader item) p)
                         (loaders (processNormalModuleRequest p m)))
     = (if shouldProcessFile (userRequest m) && negb (hasLoader p (loaders m))
        then 1
        else length (List.filter (fun item => String.eqb (loader item) p)
                                 (loaders m)))
  /\ processNormalModuleRequest p (processNormalModuleRequest p m)
     = processNormalModuleRequest p m.
Proof.
  unfold processNormalModuleRequest.
  destruct (shouldProcessFile (userRequest m)) eqn:Hfile.
  - destruct (hasLoader p (loaders m)) eqn:Hhas.
    + rewrite Hfile, Hhas. cbn. repeat split; auto.
    + cbn [userRequest loaders]. rewrite Hfile.
      rewrite hasLoader_app, Hhas, hasLoader_galadrielItem. cbn [orb andb negb].
      split; [reflexivity|]. split; [right; now split|].
      split; [reflexivity|]. split; [|reflexivity].
      rewrite List.filter_app, length_app. cbn. rewrite String.eqb_refl. cbn.
      assert (List.filter (fun item => String.eqb (loader item) p) (loaders m) = [])
        as ->; [|reflexivity].
      unfold hasLoader in Hhas. clear Hfile.
      induction (loaders m) as [|x l IH]; [reflexivity|].
      cbn in *. apply orb_false_iff in Hhas as [Hx Hl].
      rewrite Hx. now apply IH.
  - rewrite Hfile. cbn. repeat split; auto.
Qed.

End RegistrationProperties.

(** ** More on the loader *)

Section LoaderProperties.

Import Loader Scan.

Lemma isIdent_not_colon (c : ascii) : isIdent c = true -> Ascii.eqb ":" c = false.
Proof.
  intros H. destruct (Ascii.eqb ":" c) eqn:E; [|reflexivity].
  apply Ascii.eqb_eq in E. subst c. discriminate H.
Qed.

Lemma allIdent_no_colon (s : string) :
  allIdent s = true -> Js.hasChar ":" s = false.
Proof.
  induction s as [|c s IH]; [reflexivity|].
  cbn [allIdent Js.hasChar]. intros H.
  apply andb_true_iff in H as [Hc Hs].
  now rewrite (isIdent_not_colon c Hc), (IH Hs).
Qed.

(** A text without the first character of the search text has no
    occurrence of it. *)
Lemma splitFirst_absent (c : ascii) (pat' s : string) :
  Js.hasChar c s = false -> Js.splitFirst (String c pat') s = None.
Proof.
  induction s as [|d s IH]; [reflexivity|]. cbn [Js.hasChar]. intros H.
  apply orb_false_iff in H as [Hd Hs].
  cbn [Js.splitFirst Js.stripPrefix]. rewrite Hd. now rewrite (IH Hs).
Qed.

Lemma splitFirst_skip (pat s : string) (c : ascii) :
  Js.stripPrefix pat (String c s) = None ->
  Js.splitFirst pat (String c s)
  = match Js.splitFirst pat s with
    | Some (pre, post) => Some (String c pre, post)
    | None => None
    end.
Proof. intros H. cbn [Js.splitFirst]. now rewrite H. Qed.

Lemma stripPrefix_double_colon_head (c : ascii) (s : string) :
  Ascii.eqb ":" c = false ->
  Js.stripPrefix "::" (String ":" (String c s)) = None.
Proof. intros H. cbn [Js.stripPrefix]. now rewrite Ascii.eqb_refl, H. Qed.

Lemma stripPrefix_other_head (c d : ascii) (pat' s : string) :
  Ascii.eqb c d = false -> Js.stripPrefix (String c pat') (String d s) = None.
Proof. intros H. cbn [Js.stripPrefix]. now rewrite H. Qed.

(** The first [::] of a text [pre:name...], where neither [pre] nor the
    non-empty [name] has a colon, is the one after [name], if there is one. *)
Lemma splitFirst_double_colon (pre name sub : string) :
  Js.hasChar ":" pre = false ->
  identifier name = true ->
  Js.splitFirst "::" (pre ++ ":" ++ name ++ "::" ++ sub)
  = Some (pre ++ ":" ++ name, sub).
Proof.
  intros Hpre Hname. apply identifier_allIdent in Hname as [Hne Hall].
  destruct name as [|c name]; [congruence|].
  pose proof (allIdent_no_colon _ Hall) as Hcolon.
  cbn [allIdent] in Hall. apply andb_true_iff in Hall as [Hc _].
  apply isIdent_not_colon in Hc.
  induction pre as [|d pre IH].
  - cbn [append].
    rewrite splitFirst_skip by now apply stripPrefix_double_colon_head.
    pose proof (splitFirst_fresh ":" ":" (String c name) sub Hcolon) as H.
    cbn [append] in H. now rewrite H.
  - cbn [Js.hasChar] in Hpre. apply orb_false_iff in Hpre as [Hd Hpre].
    specialize (IH Hpre). cbn [append] in *.
    rewrite splitFirst_skip by now apply stripPrefix_other_head.
    now rewrite IH.
Qed.

Lemma splitFirst_no_double_colon (pre name : string) :
  Js.hasChar ":" pre = false ->
  identifier name = true ->
  Js.splitFirst "::" (pre ++ ":" ++ name) = None.
Proof.
  intros Hpre Hname. apply identifier_allIdent in Hname as [Hne Hall].
  destruct name as [|c name]; [congruence|].
  pose proof (allIdent_no_colon _ Hall) as Hcolon.
  cbn [allIdent] in Hall. apply andb_true_iff in Hall as [Hc _].
  apply isIdent_not_colon in Hc.
  induction pre as [|d pre IH].
  - cbn [append].
    rewrite splitFirst_skip by now apply stripPrefix_double_colon_head.
    now rewrite (splitFirst_absent ":" ":" (String c name) Hcolon).
  - cbn [Js.hasChar] in Hpre. apply orb_false_iff in Hpre as [Hd Hpre].
    specialize (IH Hpre). cbn [append] in *.
    rewrite splitFirst_skip by now apply stripPrefix_other_head.
    now rewrite IH.
Qed.

Lemma replace_first_colon (pre rest : string) :
  Js.hasChar ":" pre = false ->
  Js.replace (pre ++ ":" ++ rest) ":" "/" = pre ++ "/" ++ rest.
Proof. intros H. exact (replace_fresh ":" "" pre rest "/" H eq_refl). Qed.

Lemma marker_no_colon (ns : Namespace) : Js.hasChar ":" ("@" ++ marker ns) = false.
Proof. now destruct ns. Qed.

(** X3.  The URL requested for a token: the address, the fixed path, then
    the marker with its [@], the name and the sub-name separated by slashes;
    a class token gets [/none] appended, also when it carries a sub-name, a
    layout or module token gets nothing, also when it has no sub-name. *)
Theorem requestUrl_of_token
    (addr : string) (ns : Namespace) (name : string) (sub : option string) :
  identifier name = true ->
  match sub with Some x => identifier x = true | None => True end ->
  requestUrl addr ("@" ++ marker ns ++ ":" ++ name ++ subText sub)
  = addr ++ "/collect-utility-class-names/" ++ "@" ++ marker ns ++ "/" ++ name
    ++ match sub with Some x => "/" ++ x | None => "" end
    ++ match ns with NsClass => "/none" | _ => "" end.
Proof.
  intros Hname Hsub. unfold requestUrl.
  pose proof (marker_no_colon ns) as Hm.
  assert (Hfmt : Js.replace (Js.replace ("@" ++ marker ns ++ ":" ++ name ++ subText sub)
                               "::" "/") ":" "/"
                 = "@" ++ marker ns ++ "/" ++ name
                   ++ match sub with Some x => "/" ++ x | None => "" end).
  { destruct sub as [x|]; cbn [subText].
    - assert (Js.replace ("@" ++ marker ns ++ ":" ++ name ++ "::" ++ x) "::" "/"
              = ("@" ++ marker ns) ++ ":" ++ (name ++ "/" ++ x)) as ->.
      { unfold Js.replace.
        replace ("@" ++ marker ns ++ ":" ++ name ++ "::" ++ x)
          with (("@" ++ marker ns) ++ ":" ++ name ++ "::" ++ x) by string_norm.
        rewrite (splitFirst_double_colon _ _ _ Hm Hname). string_norm. }
      rewrite (replace_first_colon _ _ Hm). string_norm.
    - assert (Js.replace ("@" ++ marker ns ++ ":" ++ name ++ "") "::" "/"
              = ("@" ++ marker ns) ++ ":" ++ name) as ->.
      { unfold Js.replace. rewrite append_nil_r.
        replace ("@" ++ marker ns ++ ":" ++ name)
          with (("@" ++ marker ns) ++ ":" ++ name) by string_norm.
        now rewrite (splitFirst_no_double_colon _ _ Hm Hname). }
      rewrite (replace_first_colon _ _ Hm). string_norm. }
  rewrite Hfmt. destruct ns; cbn [Js.startsWith Js.stripPrefix append marker
                                   Ascii.eqb Bool.eqb]; string_norm.
Qed.

Lemma requestUrl_of_token_witness :
  requestUrl "http://127.0.0.1:4000"
    ("@" ++ marker NsClass ++ ":" ++ "btn" ++ subText (Some "x"))
  = "http://127.0.0.1:4000" ++ "/collect-utility-class-names/" ++ "@"
    ++ marker NsClass ++ "/" ++ "btn" ++ ("/" ++ "x") ++ "/none".
Proof.
  apply (requestUrl_of_token "http://127.0.0.1:4000" NsClass "btn" (Some "x"));
    reflexivity.
Defined.

(** *** Production *)










(** *** Development *)

(** X7.  In development a failed request is a failure of the whole
    transform: when the request of one token of the text fails, the loader
    reports an error for every order in which the requests complete, and
    when the stylesheet request fails for a text with the directive, the
    loader reports that error. *)
Theorem failed_request_fails_transform
    (srv : DevServer) (order : list nat) (s s' : string)
    (i : nat) (m : Match) (e e' : JsError) :
  Js.includes s DIRECTIVE = false ->
  matchAll s !! i = Some m ->
  retrieveUtilityClassnames srv (match0 m) = Err e ->
  Permutation order (seq 0 (length (matchAll s))) ->
  Js.includes s' DIRECTIVE = true ->
  axiosGet srv (GALADRIEL_SERVER_ADDR srv ++ "/fetch-css") = Err e' ->
  (exists err,
      galadrielWebpackLoader (Development srv order) (TextSource s)
      = CallbackErr err)
  /\ galadrielWebpackLoader (Development srv order) (TextSource s')
     = CallbackErr e'.
Proof.
  intros Hdir Hm He Hperm Hdir' Hcss. split.
  - destruct (failed_request_rejects srv order s i m e Hm He Hperm) as [err Herr].
    exists err. unfold galadrielWebpackLoader. rewrite Hdir. now rewrite Herr.
  - unfold galadrielWebpackLoader. rewrite Hdir'.
    unfold asyncReplaceCss. now rewrite Hcss.
Qed.

Lemma failed_request_fails_transform_witness :
  (exists err,
      galadrielWebpackLoader
        (Development (mkServer "http://127.0.0.1:4000"
                        (fun url => Err (AxiosError url))) [1; 0])
        (TextSource "<a @class:a> <b @layout:x::y>")
      = CallbackErr err)
  /\ galadrielWebpackLoader
       (Development (mkServer "http://127.0.0.1:4000"
                       (fun url => Err (AxiosError url))) [1; 0])
       (TextSource "@galadrielcss styles;")
     = CallbackErr (AxiosError "http://127.0.0.1:4000/fetch-css").
Proof.
  exact (failed_request_fails_transform
           (mkServer "http://127.0.0.1:4000" (fun url => Err (AxiosError url)))
           [1; 0] "<a @class:a> <b @layout:x::y>" "@galadrielcss styles;" 1
           (mkMatch "@layout:x::y" "x" (Some "y"))
           (AxiosError "http://127.0.0.1:4000/collect-utility-class-names/@layout/x/y")
           (AxiosError "http://127.0.0.1:4000/fetch-css")
           eq_refl eq_refl eq_refl (perm_swap 0 1 []) eq_refl eq_refl).
Defined.

(** *** The scan *)

Lemma matchAt_maximal (s : string) (m : Match) :
  matchAt s = Some m -> exists rest, s = match0 m ++ rest /\ stopsHere m rest.
Proof.
  unfold matchAt. intros H.
  destruct (matchMarker s) as [[ns r1]|] eqn:Em; [|discriminate].
  apply matchMarker_Some in Em.
  destruct (spanIdent r1) as [name r2] eqn:E1.
  pose proof (spanIdent_rest _ _ _ E1) as Hr2.
  apply spanIdent_spec in E1 as [-> _].
  destruct name as [|c name]; [discriminate|].
  destruct (Js.stripPrefix "::" r2) as [r3|] eqn:E2.
  - pose proof (stripPrefix_Some _ _ _ E2) as Hr; subst r2.
    destruct (spanIdent r3) as [sub r4] eqn:E3.
    pose proof (spanIdent_rest _ _ _ E3) as Hr4.
    apply spanIdent_spec in E3 as [-> _].
    destruct sub as [|d sub].
    + injection H as <-. cbn [match0 p2]. exists ("::" ++ r4).
      split; [subst s; string_norm|]. split; [reflexivity|].
      intros _ c' r Heq. cbn [append] in Heq. injection Heq as ->.
      exact Hr4.
    + injection H as <-. cbn [match0 p2]. exists r4.
      split; [subst s; string_norm|]. split; [exact Hr4|discriminate].
  - injection H as <-. cbn [match0 p2]. exists r2.
    split; [subst s; string_norm|]. split; [exact Hr2|].
    intros _ c' r Heq. subst r2. cbn in E2. discriminate E2.
Qed.

(** X8.  Matches are the longest ones: wherever a token stands in a text,
    the text is what stands before it, the token and what stands after it,
    and what stands after it starts neither with a class character nor,
    when the token has no sub-name, with [::] and a class character; so no
    token ends in the middle of a name. *)
Theorem tokens_are_maximal
    (s : string) (before after : list Segment) (m : Match) :
  segments s = (before ++ Tok m :: after)%list ->
  s = sourceOf before ++ match0 m ++ sourceOf after
  /\ stopsHere m (sourceOf after).
Proof.
  revert before.
  induction s as [|c s Hnone IH|m0 rest Hm IH] using segments_ind;
    intros before Hseg.
  - destruct before; discriminate Hseg.
  - rewrite segments_lit in Hseg by assumption.
    destruct before as [|x before]; [discriminate|].
    injection Hseg as <- Hseg. destruct (IH before Hseg) as [Hs Hstop].
    split; [|assumption]. cbn [sourceOf append]. now rewrite <- Hs.
  - destruct (segments_tok _ _ Hm) as [rest' [Heq Hsegs]].
    apply String.app_inj in Heq. subst rest'. rewrite Hsegs in Hseg.
    destruct before as [|x before].
    + injection Hseg as -> <-. rewrite sourceOf_segments. split; [reflexivity|].
      destruct (matchAt_maximal _ _ Hm) as [rest' [Heq Hstop]].
      apply String.app_inj in Heq. now subst rest'.
    + injection Hseg as <- Hseg. destruct (IH before Hseg) as [Hs Hstop].
      split; [|assumption]. cbn [sourceOf]. rewrite Hs at 1. string_norm.
Qed.

Lemma tokens_are_maximal_witness :
  "a @class:btn::!" = sourceOf [Lit "a"; Lit " "] ++ "@class:btn" ++ sourceOf [Lit ":"; Lit ":"; Lit "!"]
  /\ stopsHere (mkMatch "@class:btn" "btn" None)
       (sourceOf [Lit ":"; Lit ":"; Lit "!"]).
Proof.
  apply (tokens_are_maximal "a @class:btn::!" [Lit "a"; Lit " "]
           [Lit ":"; Lit ":"; Lit "!"] (mkMatch "@class:btn" "btn" None)).
  reflexivity.
Defined.

(** *** The directive *)

Lemma stripPrefix_extend (pat a b r : string) :
  Js.stripPrefix pat a = Some r -> Js.stripPrefix pat (a ++ b) = Some (r ++ b).
Proof.
  intros H. apply stripPrefix_Some in H. subst a.
  rewrite append_assoc. apply stripPrefix_append.
Qed.

(** Nothing before the first occurrence holds the search text. *)
Lemma splitFirst_first (pat s pre post : string) :
  Js.splitFirst pat s = Some (pre, post) -> pat <> "" ->
  Js.includes pre pat = false.
Proof.
  intros H Hpat. revert pre H. induction s as [|c s IH]; intros pre H.
  - cbn in H. destruct (Js.stripPrefix pat "") eqn:E; [|discriminate].
    injection H as <- <-. destruct pat; [congruence|reflexivity].
  - cbn [Js.splitFirst] in H.
    destruct (Js.stripPrefix pat (String c s)) eqn:E.
    + injection H as <- <-. destruct pat; [congruence|reflexivity].
    + destruct (Js.splitFirst pat s) as [[a b]|] eqn:E'; [|discriminate].
      injection H as <- <-.
      pose proof (splitFirst_Some _ _ _ _ E') as Hs.
      specialize (IH a eq_refl). unfold Js.includes in *.
      cbn [Js.splitFirst].
      destruct (Js.stripPrefix pat (String c a)) as [r|] eqn:E2.
      * exfalso. apply (stripPrefix_extend _ _ (pat ++ b)) in E2.
        cbn [append] in E2. rewrite <- Hs in E2. congruence.
      * destruct (Js.splitFirst pat a) as [[]|]; [discriminate|reflexivity].
Qed.

(** X9.  [replaceCss] rewrites the first directive of the text and nothing
    else: the text before it holds no directive, and the text after it,
    further directives included, is kept; a text without the directive is
    returned as it is, whatever the artifact. *)
Theorem replaceCss_first_directive_only
    (data : GaladrielBuildType) (other : option GaladrielBuildType)
    (s s' : string) :
  Js.includes s DIRECTIVE = true ->
  css data <> "" ->
  Js.hasChar "$" (css data) = false ->
  Js.includes s' DIRECTIVE = false ->
  (exists pre post,
      s = pre ++ DIRECTIVE ++ post
      /\ Js.includes pre DIRECTIVE = false
      /\ replaceCss (Some data) s = pre ++ css data ++ post)
  /\ replaceCss other s' = s'.
Proof.
  intros Hdir Hcss Hplain Hnone. split.
  - unfold Js.includes in Hdir.
    destruct (Js.splitFirst DIRECTIVE s) as [[pre post]|] eqn:E; [|discriminate].
    exists pre, post. split; [now apply splitFirst_Some|]. split.
    + apply (splitFirst_first _ _ _ _ E). discriminate.
    + unfold replaceCss. apply truthy_true in Hcss. rewrite Hcss.
      unfold Js.replace. rewrite E. now rewrite getSubstitution_plain.
  - unfold replaceCss, Js.replace. unfold Js.includes in Hnone.
    destruct (Js.splitFirst DIRECTIVE s') as [[]|]; [discriminate|].
    destruct other as [d|]; [|reflexivity]. now destruct (truthy (css d)).
Qed.

Lemma replaceCss_first_directive_only_witness :
  (exists pre post,
      "a{} @galadrielcss styles; @galadrielcss styles;" = pre ++ DIRECTIVE ++ post
      /\ Js.includes pre DIRECTIVE = false
      /\ replaceCss (Some Samples.artifact)
           "a{} @galadrielcss styles; @galadrielcss styles;"
         = pre ++ css Samples.artifact ++ post)
  /\ replaceCss (Some Samples.artifact) "a{}" = "a{}".
Proof.
  apply (replaceCss_first_directive_only Samples.artifact (Some Samples.artifact)
           "a{} @galadrielcss styles; @galadrielcss styles;" "a{}");
    [reflexivity | discriminate | reflexivity | reflexivity].
Defined.

End LoaderProperties.

(** ** More on the plugin *)

Section ClientProperties.

Import Client.

Lemma verifyOS_range (p a : string) (ldd : option string) (patch : string) :
  verifyOS p a ldd = Some patch ->
  (p = "darwin" /\ (patch = "x86_64-apple-darwin" \/ patch = "aarch64-apple-darwin"))
  \/ (p = "win32" /\ patch = "x86_64-pc-windows-msvc")
  \/ (p = "linux"
      /\ (patch = "x86_64-unknown-linux-musl" \/ patch = "x86_64-unknown-linux-gnu")).
Proof.
  unfold verifyOS, detectLinuxDistro.
  destruct (String.eqb p "darwin") eqn:Ed.
  { apply String.eqb_eq in Ed. left. split; [assumption|].
    destruct (Js.includes a "x64"); injection H as <-; auto. }
  destruct (String.eqb p "win32") eqn:Ew.
  { apply String.eqb_eq in Ew. cbn [andb].
    destruct (Js.includes a "x64").
    - intros [= <-]. right. left. now split.
    - rewrite andb_false_r. discriminate. }
  cbn [andb]. destruct (String.eqb p "linux") eqn:El; [|discriminate].
  apply String.eqb_eq in El. cbn [andb].
  destruct (Js.includes a "x64"); [|discriminate].
  intros H. right. right. split; [assumption|].
  destruct ldd as [out|]; [destruct (Js.includes out "musl")|];
    injection H as <-; auto.
Qed.

(** X10.  Whatever the machine, [installGaladrielCss] requests at most one
    of five addresses: the release download of one of the five
    distributions, with [.exe] for the Windows one and for no other. *)
Theorem install_requests_known_url (h : Host) (url : string) :
  In (Download url) (fst (installGaladrielCss h)) ->
  In url
    ["https://github.com/patrickgunnar/galadrielcss/releases/latest/download/galadrielcss-x86_64-apple-darwin";
     "https://github.com/patrickgunnar/galadrielcss/releases/latest/download/galadrielcss-aarch64-apple-darwin";
     "https://github.com/patrickgunnar/galadrielcss/releases/latest/download/galadrielcss-x86_64-pc-windows-msvc.exe";
     "https://github.com/patrickgunnar/galadrielcss/releases/latest/download/galadrielcss-x86_64-unknown-linux-musl";
     "https://github.com/patrickgunnar/galadrielcss/releases/latest/download/galadrielcss-x86_64-unknown-linux-gnu"].
Proof.
  unfold installGaladrielCss.
  destruct (verifyOS (platform h) (arch h) (lddProbe h)) as [patch|] eqn:E.
  - assert (Hurl : In (Download url)
                      [Download (downloadUrl (platform h) patch)] ->
                   In url
                     ["https://github.com/patrickgunnar/galadrielcss/releases/latest/download/galadrielcss-x86_64-apple-darwin";
                      "https://github.com/patrickgunnar/galadrielcss/releases/latest/download/galadrielcss-aarch64-apple-darwin";
                      "https://github.com/patrickgunnar/galadrielcss/releases/latest/download/galadrielcss-x86_64-pc-windows-msvc.exe";
                      "https://github.com/patrickgunnar/galadrielcss/releases/latest/download/galadrielcss-x86_64-unknown-linux-musl";
                      "https://github.com/patrickgunnar/galadrielcss/releases/latest/download/galadrielcss-x86_64-unknown-linux-gnu"]).
    { intros [[= <-]|[]].
      destruct (verifyOS_range _ _ _ _ E)
        as [[-> [->| ->]]|[[-> ->]|[-> [->| ->]]]]; cbn; auto 6. }
    destruct (download h) as [e|status [e|[|]]];
      try destruct (Nat.eqb status 200); cbn [negb fst];
      intros Hin; apply Hurl; cbn in Hin; cbn;
      repeat (destruct Hin as [Hin|Hin]; [try discriminate Hin; now left|]);
      destruct Hin.
  - cbn. intros [H|[]]. discriminate H.
Qed.

Lemma install_requests_known_url_witness :
  In "https://github.com/patrickgunnar/galadrielcss/releases/latest/download/galadrielcss-x86_64-unknown-linux-gnu"
    ["https://github.com/patrickgunnar/galadrielcss/releases/latest/download/galadrielcss-x86_64-apple-darwin";
     "https://github.com/patrickgunnar/galadrielcss/releases/latest/download/galadrielcss-aarch64-apple-darwin";
     "https://github.com/patrickgunnar/galadrielcss/releases/latest/download/galadrielcss-x86_64-pc-windows-msvc.exe";
     "https://github.com/patrickgunnar/galadrielcss/releases/latest/download/galadrielcss-x86_64-unknown-linux-musl";
     "https://github.com/patrickgunnar/galadrielcss/releases/latest/download/galadrielcss-x86_64-unknown-linux-gnu"].
Proof.
  apply (install_requests_known_url Samples.linuxHost). vm_compute. tauto.
Defined.


(** X11.  [installGaladrielCss] succeeds exactly when the platform is
    supported and the download answers 200 and finishes with the file in
    place; the file is made executable exactly when the install succeeds;
    and on an unsupported platform nothing is created or requested. *)
Theorem install_outcome (h : Host) :
  (snd (installGaladrielCss h) = Ok tt
   <-> unsupported h = false /\ download h = Responded 200 (Finished true))
  /\ (In Chmod (fst (installGaladrielCss h))
      <-> snd (installGaladrielCss h) = Ok tt)
  /\ (unsupported h = true -> fst (installGaladrielCss h) = [InstallCalled]).
Proof.
  unfold installGaladrielCss, unsupported.
  destruct (verifyOS (platform h) (arch h) (lddProbe h)) as [patch|];
    [destruct (download h) as [e|status [e|[|]]];
     try destruct (Nat.eqb_spec status 200) as [->|Hne]|];
    cbn [negb fst snd];
    (split; [split|split; [split|]]);
    try discriminate; try reflexivity;
    try (intros [Hu Hd]; first [discriminate Hu | discriminate Hd | congruence]);
    try (intros H; cbn in H;
         repeat (destruct H as [H|H]; [discriminate H|]); now destruct H);
    try (intros _; split; reflexivity);
    try (intros _; cbn; tauto).
Qed.



(** *** Development builds *)

Lemma step_without_taps (st : State) (ev : Event) :
  beforeRunTaps st = [] -> doneTaps st = [] ->
  match ev with Apply production _ => production = false | _ => True end ->
  step st ev = st.
Proof.
  intros Hb Hd Hev. destruct ev as [production c|c h|c]; cbn [step].
  - subst production. reflexivity.
  - now rewrite Hb.
  - now rewrite Hd.
Qed.

(** X13.  Outside production the plugin places no tap: when every [apply]
    of a trace is a development one, the hooks may fire as they like and
    nothing is installed, built or removed, and no flag is set. *)
Theorem development_places_no_tap (trace : list Event) :
  Forall (fun ev => match ev with
                    | Apply production _ => production = false
                    | _ => True
                    end) trace ->
  run initial trace = initial.
Proof.
  intros H. unfold run.
  assert (Hgen : forall st, beforeRunTaps st = [] -> doneTaps st = [] ->
                            fold_left step trace st = st).
  { induction H as [|ev trace Hev _ IH]; intros st Hb Hd; [reflexivity|].
    cbn [fold_left]. rewrite (step_without_taps st ev Hb Hd Hev).
    now apply IH. }
  now apply Hgen.
Qed.

Lemma development_places_no_tap_witness :
  run initial [Apply false 0; FireBeforeRun 0 Samples.linuxHost;
               Apply false 1; FireDone 0; FireDone 1] = initial.
Proof.
  apply development_places_no_tap. repeat constructor.
Defined.

(** *** The two revisions of [verifyOS] *)

(** X14.  The current [verifyOS] extends the earlier one of [src/index.ts]:
    whatever the earlier one resolves, the current one resolves to the same
    distribution; they differ only where the earlier one gives up, on Linux
    x64 with a probe that fails or shows neither [musl] nor [libc.so], which
    the current one takes for glibc. *)
Theorem verifyOS_extends_legacy
    (p a : string) (ldd : option string) (patch : string) :
  Legacy.verifyOS p a ldd = Some patch ->
  verifyOS p a ldd = Some patch
  /\ (forall p' a' ldd',
        Legacy.verifyOS p' a' ldd' = None ->
        verifyOS p' a' ldd' = None
        \/ (p' = "linux" /\ Js.includes a' "x64" = true
            /\ verifyOS p' a' ldd' = Some "x86_64-unknown-linux-gnu")).
Proof.
  intros H. split.
  - revert H. unfold Legacy.verifyOS, verifyOS, detectLinuxDistro.
    destruct (String.eqb p "darwin"); [trivial|].
    destruct (String.eqb p "win32" && Js.includes a "x64"); [trivial|].
    destruct (String.eqb p "linux" && Js.includes a "x64"); [|trivial].
    destruct ldd as [out|]; [|discriminate].
    destruct (Js.includes out "musl"); [trivial|].
    destruct (Js.includes out "libc.so"); [trivial|discriminate].
  - clear. intros p a ldd. unfold Legacy.verifyOS, verifyOS, detectLinuxDistro.
    destruct (String.eqb p "darwin").
    { destruct (Js.includes a "x64"); discriminate. }
    destruct (String.eqb p "win32" && Js.includes a "x64"); [discriminate|].
    destruct (String.eqb p "linux") eqn:El; cbn [andb]; [|now left].
    apply String.eqb_eq in El.
    destruct (Js.includes a "x64"); [|now left].
    destruct ldd as [out|].
    + destruct (Js.includes out "musl"); [discriminate|].
      intros _. right. auto.
    + intros _. right. auto.
Qed.

Lemma verifyOS_extends_legacy_witness :
  verifyOS "linux" "x64" (Some "libc.so.6 => /lib/x86_64-linux-gnu/libc.so.6")
  = Some "x86_64-unknown-linux-gnu"
  /\ (forall p' a' ldd',
        Legacy.verifyOS p' a' ldd' = None ->
        verifyOS p' a' ldd' = None
        \/ (p' = "linux" /\ Js.includes a' "x64" = true
            /\ verifyOS p' a' ldd' = Some "x86_64-unknown-linux-gnu")).
Proof.
  apply (verifyOS_extends_legacy "linux" "x64"
           (Some "libc.so.6 => /lib/x86_64-linux-gnu/libc.so.6")).
  reflexivity.
Defined.

(** *** Cleanup *)

Lemma step_after_cleanup (st : State) (ev : Event) :
  hasRemovedGaladrielDir st = true ->
  hasRemovedGaladrielDir (step st ev) = true
  /\ removals (step st ev) = removals st
  /\ (dirExists st = true -> dirExists (step st ev) = true).
Proof.
  intros Hflag. destruct ev as [[|] c|c h|c]; cbn [step apply].
  - unfold setupProductionHooks, removals, countEffect.
    destruct (hasRunGaladrielBuild st); cbn; auto.
  - auto.
  - apply (iter_preserves
             (fun st' => hasRemovedGaladrielDir st' = true
                         /\ removals st' = removals st
                         /\ (dirExists st = true -> dirExists st' = true)));
      [|auto].
    intros st' (H1 & H2 & H3).
    destruct (runBeforeRunTap_spec h st') as (_ & H4 & _ & _ & _ & _ & H5).
    rewrite H4, H5. repeat split; try assumption.
    intros Hd. unfold runBeforeRunTap. destruct (handleBeforeRun h) as [fx r].
    cbn. now rewrite (H3 Hd).
  - apply (iter_preserves
             (fun st' => hasRemovedGaladrielDir st' = true
                         /\ removals st' = removals st
                         /\ (dirExists st = true -> dirExists st' = true)));
      [|auto].
    intros st' (H1 & H2 & H3).
    unfold cleanupAfterBuild. rewrite H1. auto.
Qed.

(** X15.  Cleanup works once per process: after its first run nothing is
    removed any more, whatever happens next; a folder that an install
    creates after that run stays. *)
Theorem cleanup_only_first_time (st : State) (trace : list Event) :
  hasRemovedGaladrielDir st = true ->
  removals (run st trace) = removals st
  /\ (dirExists st = true -> dirExists (run st trace) = true).
Proof.
  revert st. induction trace as [|ev trace IH]; intros st Hflag; [auto|].
  cbn [run fold_left].
  change (fold_left step trace (step st ev)) with (run (step st ev) trace).
  destruct (step_after_cleanup st ev Hflag) as (H1 & H2 & H3).
  destruct (IH (step st ev) H1) as [H4 H5].
  rewrite H4, H2. split; [reflexivity|]. intros Hd. apply H5, H3, Hd.
Qed.

Lemma cleanup_only_first_time_witness :
  removals (run (run initial [Apply true 0; FireDone 0; FireBeforeRun 0 Samples.linuxHost])
                [FireDone 0; FireBeforeRun 0 Samples.linuxHost; FireDone 0])
  = removals (run initial [Apply true 0; FireDone 0; FireBeforeRun 0 Samples.linuxHost])
  /\ dirExists (run (run initial [Apply true 0; FireDone 0;
                                  FireBeforeRun 0 Samples.linuxHost])
                    [FireDone 0; FireBeforeRun 0 Samples.linuxHost; FireDone 0])
     = true.
Proof.
  destruct (cleanup_only_first_time
              (run initial [Apply true 0; FireDone 0; FireBeforeRun 0 Samples.linuxHost])
              [FireDone 0; FireBeforeRun 0 Samples.linuxHost; FireDone 0] eq_refl)
    as [H1 H2].
  split; [exact H1|]. apply H2. reflexivity.
Defined.

End ClientProperties.
